(** * ts_MTDome: the mock motion models of the dome axes

    A shallow embedding of
    [python/lsst/ts/MTDome/mock_llc/mock_motion/elevation_motion.py]
    (class [ElevationMotion]) together with the parts of its base class and
    of the azimuth sibling that the specification describes.

    Modelling conventions.
    - Python floats (positions in radians, TAI times in seconds, velocities)
      are idealised as real numbers: every arithmetic operation is exact.
      Comparisons are the decidable comparisons of [R].
    - A Python object with mutable attributes is a record; a method is a
      function from the object before the call to an outcome together with
      the object after the call.  A raised exception is the outcome
      [Raise e].
    - Float division raises [ZeroDivisionError] on a zero divisor; this is
      kept explicit in [py_div]. *)

From Stdlib Require Import Reals Lra Lia List ZArith.
Import ListNotations.

Open Scope R_scope.

(** ** Outcomes of a call *)

Inductive value_error : Type :=
| TaiBeforeStart   (* "Encountered TAI ... which is smaller than start TAI" *)
| SpeedAboveMax.   (* the requested crawl velocity exceeds the maximum speed *)

Inductive exn : Type :=
| ValueError (reason : value_error)
| ZeroDivisionError
| NotImplementedError.

Inductive result (A : Type) : Type :=
| Ok (a : A)
| Raise (e : exn).

Arguments Ok {A} a.
Arguments Raise {A} e.

Definition bind {A B : Type} (r : result A) (k : A -> result B) : result B :=
  match r with
  | Ok a => k a
  | Raise e => Raise e
  end.

Notation "x <- r ;; k" := (bind r (fun x => k))
  (at level 61, r at next level, right associativity).

Definition is_ok {A : Type} (r : result A) : Prop :=
  match r with Ok _ => True | Raise _ => False end.

(** Python's [a / b] on floats. *)
Definition py_div (a b : R) : result R :=
  if Req_dec_T b 0 then Raise ZeroDivisionError else Ok (a / b).

(** ** Angles

    [math.degrees], [salobj.angle_wrap_nonnegative] and the [.rad] attribute
    of the returned angle belong to the Python standard library and to
    ts_salobj / astropy.  They are modelled by what they compute on exact
    numbers: conversion by the factor 180/pi, reduction into [0, 360) by
    subtracting the multiple of 360 below the argument, and conversion
    back. *)

Definition degrees (x : R) : R := x * (180 / PI).

Definition rad (deg : R) : R := deg * (PI / 180).

Definition angle_wrap_nonnegative (deg : R) : R :=
  deg - 360 * IZR (Int_part (deg / 360)).

(** The last statement before [return] of the evaluation method:
    [salobj.angle_wrap_nonnegative(math.degrees(position)).rad]. *)
Definition wrap_position (position : R) : R :=
  rad (angle_wrap_nonnegative (degrees position)).

(** ** MotionState

    [lsst.ts.idl.enums.MTDome.MotionState] is declared in ts_idl; the
    members are the ones the specification lists. *)

Inductive MotionState : Type :=
| STOPPED | MOVING | CRAWLING | STOPPING | PARKING | PARKED.

Definition MotionState_eq_dec (a b : MotionState) : {a = b} + {a <> b}.
Proof. decide equality. Defined.

(** ** The attributes of a motion model, [BaseLlcMotion.__init__] *)

Record BaseLlcMotion : Type := mkLlcMotion {
  _start_position : R;
  _min_position : R;
  _max_position : R;
  _max_speed : R;
  _start_tai : R;
  _end_tai : R;
  _end_position : R;
  _crawl_velocity : R;
  _commanded_motion_state : MotionState
}.

(** Modelled from the spec: [BaseLlcMotion._get_distance] is declared in
    base_llc_motion.py, which is missing.  For the
    elevation axis "distance is the plain signed difference" between the
    end position and the start position of the segment. *)
Definition _get_distance (self : BaseLlcMotion) : R :=
  _end_position self - _start_position self.

(** ** ElevationMotion *)

Module ElevationMotion.

(** The branches of [get_position_velocity_and_motion_state], up to but not
    including the final normalisation of the position. *)
Definition evaluate_branches (self : BaseLlcMotion) (tai : R)
  : result (R * R * MotionState) :=
  if Rge_dec tai (_end_tai self) then
    if in_dec MotionState_eq_dec (_commanded_motion_state self)
              [STOPPING; STOPPED; MOVING]
    then
      Ok (_end_position self, 0, STOPPED)
    else
      let diff_since_crawl_started := tai - _end_tai self in
      let position :=
        _start_position self + _crawl_velocity self * diff_since_crawl_started in
      let motion_state := CRAWLING in
      let velocity := _crawl_velocity self in
      let '(position, motion_state, velocity) :=
        if Rge_dec position (_max_position self) then
          (_max_position self, STOPPED, 0)
        else if Rle_dec position (_min_position self) then
          (_min_position self, STOPPED, 0)
        else (position, motion_state, velocity) in
      let '(motion_state, velocity) :=
        if Req_dec_T (_crawl_velocity self) 0 then (STOPPED, 0)
        else (motion_state, velocity) in
      Ok (position, velocity, motion_state)
  else if Rlt_dec tai (_start_tai self) then
    Raise (ValueError TaiBeforeStart)
  else
    frac_time <- py_div (tai - _start_tai self) (_end_tai self - _start_tai self) ;;
    let distance := _get_distance self in
    let position := _start_position self + distance * frac_time in
    let velocity := _max_speed self in
    let velocity := if Rlt_dec distance 0 then - _max_speed self else velocity in
    let '(motion_state, velocity) :=
      if MotionState_eq_dec (_commanded_motion_state self) STOPPING
      then (STOPPED, 0)
      else (MOVING, velocity) in
    Ok (position, velocity, motion_state).

Definition get_position_velocity_and_motion_state
  (self : BaseLlcMotion) (tai : R) : result (R * R * MotionState) :=
  r <- evaluate_branches self tai ;;
  let '(position, velocity, motion_state) := r in
  let position := wrap_position position in
  Ok (position, velocity, motion_state).

(** [stop]: the outcome of the call and the object after it.  The evaluation
    comes first, so an exception leaves every attribute as it was.
    [_end_tai] is not assigned. *)
Definition stop (self : BaseLlcMotion) (start_tai : R)
  : result unit * BaseLlcMotion :=
  match get_position_velocity_and_motion_state self start_tai with
  | Raise e => (Raise e, self)
  | Ok (position, velocity, motion_state) =>
    (Ok tt,
     {| _start_position := position;
        _min_position := _min_position self;
        _max_position := _max_position self;
        _max_speed := _max_speed self;
        _start_tai := start_tai;
        _end_tai := _end_tai self;
        _end_position := position;
        _crawl_velocity := 0;
        _commanded_motion_state := STOPPING |})
  end.

(** [park] raises unconditionally. *)
Definition park (self : BaseLlcMotion) (start_tai : R)
  : result unit * BaseLlcMotion :=
  (Raise NotImplementedError, self).

End ElevationMotion.

(** ** Parts of the package that are described by the specification

    base_llc_motion.py and azimuth_motion.py are not among the sources; the
    tests in tests/test_azimuth_motion.py call them.  What follows is
    written from the specification, and from those tests where they fix a
    case the specification leaves open. *)

(** [math.radians], used by the tests to write positions in degrees. *)
Definition radians (deg : R) : R := deg * (PI / 180).

(** The object after a command has replaced the segment: the bounds and the
    maximum speed are those of the constructor, every other attribute is
    assigned. *)
Definition install_segment (self : BaseLlcMotion)
  (start_position start_tai end_tai end_position crawl_velocity : R)
  (motion_state : MotionState) : BaseLlcMotion :=
  {| _start_position := start_position;
     _min_position := _min_position self;
     _max_position := _max_position self;
     _max_speed := _max_speed self;
     _start_tai := start_tai;
     _end_tai := end_tai;
     _end_position := end_position;
     _crawl_velocity := crawl_velocity;
     _commanded_motion_state := motion_state |}.

Section BaseLlcMotionMethods.

(** The two methods an axis supplies: its evaluation and the signed distance
    of the installed segment. *)
Variable axis_evaluate : BaseLlcMotion -> R -> result (R * R * MotionState).
Variable axis_distance : BaseLlcMotion -> R.

(** Modelled from the spec: [BaseLlcMotion.set_target_position_and_velocity]
    (base_llc_motion.py is missing).  The crawl velocity is checked against
    the maximum speed before anything else, so that the error is "surfaced
    before any segment mutation occurs"; the command time must not precede
    the recorded start time; the current position is the one evaluated at
    the command time; the duration is [|distance| / max_speed]; the new
    segment starts at the command time and ends [duration] later.  A command
    whose state is CRAWLING has duration zero whatever its target
    ([test_crawl_pos] expects 0.0 for a crawl from 350 to 10 degrees). *)
Definition set_target_position_and_velocity
  (self : BaseLlcMotion) (start_tai end_position crawl_velocity : R)
  (motion_state : MotionState) : result R * BaseLlcMotion :=
  if Rgt_dec (Rabs crawl_velocity) (_max_speed self) then
    (Raise (ValueError SpeedAboveMax), self)
  else if Rlt_dec start_tai (_start_tai self) then
    (Raise (ValueError TaiBeforeStart), self)
  else
    match axis_evaluate self start_tai with
    | Raise e => (Raise e, self)
    | Ok (position, velocity, current_state) =>
      let installed (end_tai : R) :=
        install_segment self position start_tai end_tai end_position
                        crawl_velocity motion_state in
      let duration :=
        if MotionState_eq_dec motion_state CRAWLING then Ok 0
        else py_div (Rabs (axis_distance (installed start_tai)))
                    (_max_speed self) in
      match duration with
      | Raise e => (Raise e, self)
      | Ok duration => (Ok duration, installed (start_tai + duration))
      end
    end.

End BaseLlcMotionMethods.

Module AzimuthMotion.

(** Modelled from the spec: the shortest-path distance of
    [AzimuthMotion] (azimuth_motion.py is missing).  "Candidate signed
    deltas are target - current, target - current + 2 pi,
    target - current - 2 pi; the one with smallest absolute value is chosen;
    exact ties resolve toward the positive direction." *)
Definition closer (a b : R) : R :=
  if Rlt_dec (Rabs a) (Rabs b) then a
  else if Rlt_dec (Rabs b) (Rabs a) then b
  else Rmax a b.

(** Modelled from the spec: the shortest-path distance itself (missing with
    azimuth_motion.py): the closest of the three candidates to zero. *)
Definition shortest_path_distance (current target : R) : R :=
  let delta := target - current in
  closer (closer delta (delta + 2 * PI)) (delta - 2 * PI).

(** Modelled from the spec: [AzimuthMotion._get_distance] (missing): the
    shortest-path distance from the start position to the end position of
    the installed segment. *)
Definition _get_distance (self : BaseLlcMotion) : R :=
  shortest_path_distance (_start_position self) (_end_position self).

(** Modelled from the spec: the evaluation of [AzimuthMotion], with the
    structure of its elevation sibling.  In transit the position is
    interpolated along the shortest path and reported as MOVING (PARKING
    for a park in progress, STOPPED with velocity 0 for a stop).  After the
    end time a stop holds its position, a park reports PARKED, and every
    other command crawls: from the end position after a move
    ([test_move_zero_ten_pos]), from the start position for a crawl command
    ([test_crawl_pos]); a zero crawl velocity reports STOPPED.  The position
    is normalised into [0, 2 pi) on output. *)
Definition evaluate_branches (self : BaseLlcMotion) (tai : R)
  : result (R * R * MotionState) :=
  if Rge_dec tai (_end_tai self) then
    if MotionState_eq_dec (_commanded_motion_state self) PARKING then
      Ok (_end_position self, 0, PARKED)
    else if in_dec MotionState_eq_dec (_commanded_motion_state self)
                   [STOPPING; STOPPED]
    then
      Ok (_end_position self, 0, STOPPED)
    else
      let diff_since_crawl_started := tai - _end_tai self in
      let calculation_position :=
        if MotionState_eq_dec (_commanded_motion_state self) CRAWLING
        then _start_position self else _end_position self in
      let position :=
        calculation_position + _crawl_velocity self * diff_since_crawl_started in
      if Req_dec_T (_crawl_velocity self) 0 then Ok (position, 0, STOPPED)
      else Ok (position, _crawl_velocity self, CRAWLING)
  else if Rlt_dec tai (_start_tai self) then
    Raise (ValueError TaiBeforeStart)
  else
    frac_time <- py_div (tai - _start_tai self) (_end_tai self - _start_tai self) ;;
    let distance := _get_distance self in
    let position := _start_position self + distance * frac_time in
    let velocity :=
      if Rlt_dec distance 0 then - _max_speed self else _max_speed self in
    if MotionState_eq_dec (_commanded_motion_state self) STOPPING then
      Ok (position, 0, STOPPED)
    else if MotionState_eq_dec (_commanded_motion_state self) PARKING then
      Ok (position, velocity, PARKING)
    else
      Ok (position, velocity, MOVING).

(** Modelled from the spec: [AzimuthMotion.get_position_velocity_and_motion_state]
    (missing): the branches followed by the normalisation, "applied every
    query". *)
Definition get_position_velocity_and_motion_state
  (self : BaseLlcMotion) (tai : R) : result (R * R * MotionState) :=
  r <- evaluate_branches self tai ;;
  let '(position, velocity, motion_state) := r in
  Ok (wrap_position position, velocity, motion_state).

(** Modelled from the spec: [AzimuthMotion] inherits the base method
    (both files are missing). *)
Definition set_target_position_and_velocity :=
  set_target_position_and_velocity
    get_position_velocity_and_motion_state _get_distance.

(** Modelled from the spec: the constructor, as the tests call it
    ([AzimuthMotion(start_position, max_speed, start_tai)]): a model at rest
    at the initial position, whose segment starts and ends at the initial
    time.  The azimuth axis has no bounds; the two attributes are set to
    the ends of the circular domain. *)
Definition init (start_position max_speed start_tai : R) : BaseLlcMotion :=
  {| _start_position := start_position;
     _min_position := 0;
     _max_position := 2 * PI;
     _max_speed := max_speed;
     _start_tai := start_tai;
     _end_tai := start_tai;
     _end_position := start_position;
     _crawl_velocity := 0;
     _commanded_motion_state := STOPPED |}.

(** Modelled from the spec: [AzimuthMotion.stop] (azimuth_motion.py is
    missing), "the universal halt operation for both axes": it "evaluates
    the current position/velocity/state at command_tai, then installs a
    zero-length, zero-crawl segment at that position with
    commanded_motion_state = STOPPING".  The segment starts and ends at the
    command time. *)
Definition stop (self : BaseLlcMotion) (start_tai : R)
  : result unit * BaseLlcMotion :=
  match get_position_velocity_and_motion_state self start_tai with
  | Raise e => (Raise e, self)
  | Ok (position, velocity, motion_state) =>
    (Ok tt,
     install_segment self position start_tai start_tai position 0 STOPPING)
  end.

(** Modelled from the spec: [AzimuthMotion.park] (missing): "installs a
    segment driving the axis to position 0 by the shortest path, with
    commanded_motion_state = PARKING", from the position evaluated at the
    command time, lasting the length of that path divided by the maximum
    speed. *)
Definition park (self : BaseLlcMotion) (start_tai : R)
  : result unit * BaseLlcMotion :=
  match get_position_velocity_and_motion_state self start_tai with
  | Raise e => (Raise e, self)
  | Ok (position, velocity, motion_state) =>
    match py_div (Rabs (shortest_path_distance position 0)) (_max_speed self)
    with
    | Raise e => (Raise e, self)
    | Ok duration =>
      (Ok tt,
       install_segment self position start_tai (start_tai + duration) 0 0
                       PARKING)
    end
  end.

End AzimuthMotion.

(** Modelled from the spec: [ElevationMotion] inherits the base method
    (base_llc_motion.py is missing) and evaluates with its own
    [get_position_velocity_and_motion_state]. *)
Definition elevation_set_target_position_and_velocity :=
  set_target_position_and_velocity
    ElevationMotion.get_position_velocity_and_motion_state _get_distance.

(** The two axes of the dome that share the base method. *)
Inductive axis : Type := Azimuth | Elevation.

Definition axis_set_target_position_and_velocity (a : axis) :=
  match a with
  | Azimuth => AzimuthMotion.set_target_position_and_velocity
  | Elevation => elevation_set_target_position_and_velocity
  end.


(** ** Vocabulary of the statements *)

(** The commanded states for which the elevation evaluation holds the end
    position once the end time has passed. *)
Definition holds_at_end (state : MotionState) : Prop :=
  In state [STOPPING; STOPPED; MOVING].

(** The position before clamping in the crawl branch of the elevation
    evaluation. *)
Definition crawl_position (self : BaseLlcMotion) (tai : R) : R :=
  _start_position self + _crawl_velocity self * (tai - _end_tai self).

(** The position, velocity and state of the in-transit branch of the
    elevation evaluation. *)
Definition transit_position (self : BaseLlcMotion) (tai : R) : R :=
  _start_position self
  + _get_distance self
    * ((tai - _start_tai self) / (_end_tai self - _start_tai self)).

Definition transit_velocity (self : BaseLlcMotion) : R :=
  if MotionState_eq_dec (_commanded_motion_state self) STOPPING then 0
  else if Rlt_dec (_get_distance self) 0 then - _max_speed self
  else _max_speed self.

Definition transit_state (self : BaseLlcMotion) : MotionState :=
  if MotionState_eq_dec (_commanded_motion_state self) STOPPING then STOPPED
  else MOVING.

(** The three candidates of the shortest-path distance. *)
Definition candidate (current target d : R) : Prop :=
  d = target - current
  \/ d = target - current + 2 * PI
  \/ d = target - current - 2 * PI.

(** The object left by an accepted [stop]. *)
Definition stopped_at (self : BaseLlcMotion) (start_tai position : R)
  : BaseLlcMotion :=
  {| _start_position := position;
     _min_position := _min_position self;
     _max_position := _max_position self;
     _max_speed := _max_speed self;
     _start_tai := start_tai;
     _end_tai := _end_tai self;
     _end_position := position;
     _crawl_velocity := 0;
     _commanded_motion_state := STOPPING |}.

(** ** Segments used as examples *)

(** A move from 0 to 1 rad between the times 0 and 1, at 1 rad/s. *)
Definition moving_segment : BaseLlcMotion :=
  {| _start_position := 0; _min_position := 0; _max_position := 3 / 2;
     _max_speed := 1; _start_tai := 0; _end_tai := 1; _end_position := 1;
     _crawl_velocity := 0; _commanded_motion_state := MOVING |}.

(** A crawl upward from 0 at 1/2 rad/s, bounds 0 and 1. *)
Definition crawl_up_segment : BaseLlcMotion :=
  {| _start_position := 0; _min_position := 0; _max_position := 1;
     _max_speed := 1; _start_tai := 0; _end_tai := 0; _end_position := 0;
     _crawl_velocity := 1 / 2; _commanded_motion_state := CRAWLING |}.

(** A crawl downward from 0 at 1 rad/s on a model whose minimum position is
    negative. *)
Definition crawl_down_segment : BaseLlcMotion :=
  {| _start_position := 0; _min_position := -1; _max_position := 1;
     _max_speed := 1; _start_tai := 0; _end_tai := 0; _end_position := 0;
     _crawl_velocity := -1; _commanded_motion_state := CRAWLING |}.

(** A move from 0 to a full turn, followed by a crawl request. *)
Definition full_turn_segment : BaseLlcMotion :=
  {| _start_position := 0; _min_position := 0; _max_position := 2 * PI;
     _max_speed := 2 * PI; _start_tai := 0; _end_tai := 1;
     _end_position := 2 * PI;
     _crawl_velocity := 1 / 10; _commanded_motion_state := MOVING |}.

(** [moving_segment] after a stop at time 5, later than its end time. *)
Definition stopped_late_segment : BaseLlcMotion :=
  snd (ElevationMotion.stop moving_segment 5).

(** ** Vocabulary of the further properties *)

(** The two tests applied to the crawl position, in the order of the code:
    the maximum position first, then the minimum position. *)
Definition clamp (min_position max_position position : R) : R :=
  if Rge_dec position max_position then max_position
  else if Rle_dec position min_position then min_position
  else position.

(** The same object on a clock that is [d] seconds ahead. *)
Definition shift_time (self : BaseLlcMotion) (d : R) : BaseLlcMotion :=
  {| _start_position := _start_position self;
     _min_position := _min_position self;
     _max_position := _max_position self;
     _max_speed := _max_speed self;
     _start_tai := _start_tai self + d;
     _end_tai := _end_tai self + d;
     _end_position := _end_position self;
     _crawl_velocity := _crawl_velocity self;
     _commanded_motion_state := _commanded_motion_state self |}.

(** The same object constructed with other bounds. *)
Definition with_bounds (self : BaseLlcMotion) (min_position max_position : R)
  : BaseLlcMotion :=
  {| _start_position := _start_position self;
     _min_position := min_position;
     _max_position := max_position;
     _max_speed := _max_speed self;
     _start_tai := _start_tai self;
     _end_tai := _end_tai self;
     _end_position := _end_position self;
     _crawl_velocity := _crawl_velocity self;
     _commanded_motion_state := _commanded_motion_state self |}.

(** A crawl upward from 1/4 at 1/4 rad/s, bounds 0 and 1. *)
Definition slow_crawl_segment : BaseLlcMotion :=
  {| _start_position := 1 / 4; _min_position := 0; _max_position := 1;
     _max_speed := 1; _start_tai := 0; _end_tai := 0; _end_position := 1 / 4;
     _crawl_velocity := 1 / 4; _commanded_motion_state := CRAWLING |}.

(** ** Vocabulary of continuity *)

(** The evaluation of either axis. *)
Definition axis_get_position_velocity_and_motion_state (a : axis) :=
  match a with
  | Azimuth => AzimuthMotion.get_position_velocity_and_motion_state
  | Elevation => ElevationMotion.get_position_velocity_and_motion_state
  end.

(** [axis_reports a self tai p]: the evaluation of the axis at [tai] returns
    the position [p]. *)
Definition axis_reports (a : axis) (self : BaseLlcMotion) (tai p : R) : Prop :=
  exists velocity motion_state,
    axis_get_position_velocity_and_motion_state a self tai
    = Ok (p, velocity, motion_state).

(** The distance between two angles of [0, 2 pi), the shorter way round. *)
Definition angular_distance (p q : R) : R :=
  Rmin (Rabs (p - q)) (2 * PI - Rabs (p - q)).

(** The returned position is continuous in time at [t]: as an angle, and as
    a number. *)
Definition angle_continuous_at (a : axis) (self : BaseLlcMotion) (t : R)
  : Prop :=
  exists p_end,
    axis_reports a self t p_end /\
    forall eps, eps > 0 ->
      exists delta, delta > 0 /\
        forall tai p,
          Rabs (tai - t) < delta ->
          axis_reports a self tai p -> angular_distance p p_end < eps.

Definition number_continuous_at (a : axis) (self : BaseLlcMotion) (t : R)
  : Prop :=
  exists p_end,
    axis_reports a self t p_end /\
    forall eps, eps > 0 ->
      exists delta, delta > 0 /\
        forall tai p,
          Rabs (tai - t) < delta ->
          axis_reports a self tai p -> Rabs (p - p_end) < eps.
(** * Properties *)

(** ** The normalisation of angles *)

Lemma PI_neq_0 : PI <> 0.
Proof. pose proof PI_RGT_0; lra. Qed.

Lemma angle_wrap_nonnegative_range (deg : R) :
  0 <= angle_wrap_nonnegative deg < 360.
Proof.
  unfold angle_wrap_nonnegative.
  destruct (base_Int_part (deg / 360)) as [Hle Hgt].
  replace deg with (deg / 360 * 360) at 1 3 by field.
  lra.
Qed.

Lemma angle_wrap_nonnegative_turns (deg : R) (k : Z) :
  0 <= deg - 360 * IZR k < 360 ->
  angle_wrap_nonnegative deg = deg - 360 * IZR k.
Proof.
  intros H. unfold angle_wrap_nonnegative.
  rewrite <- (Int_part_spec (deg / 360) k); [reflexivity|].
  replace deg with (deg / 360 * 360) in H by field.
  lra.
Qed.

Lemma wrap_position_range (position : R) :
  0 <= wrap_position position < 2 * PI.
Proof.
  unfold wrap_position, rad.
  pose proof (angle_wrap_nonnegative_range (degrees position)).
  pose proof PI_RGT_0. nra.
Qed.

Lemma wrap_position_turns (position : R) (k : Z) :
  0 <= position - 2 * PI * IZR k < 2 * PI ->
  wrap_position position = position - 2 * PI * IZR k.
Proof.
  intros H. unfold wrap_position. pose proof PI_RGT_0 as Hpi.
  rewrite (angle_wrap_nonnegative_turns _ k).
  - unfold degrees, rad. field. lra.
  - unfold degrees.
    replace (position * (180 / PI) - 360 * IZR k)
      with ((position - 2 * PI * IZR k) * (180 / PI)) by (field; lra).
    assert (Hk : 0 < 180 / PI) by (apply Rdiv_lt_0_compat; lra).
    assert (E : 360 = 2 * PI * (180 / PI)) by (field; lra).
    split.
    + apply Rmult_le_pos; lra.
    + rewrite E. apply Rmult_lt_compat_r; lra.
Qed.

Lemma wrap_position_id (position : R) :
  0 <= position < 2 * PI -> wrap_position position = position.
Proof.
  intros H. rewrite (wrap_position_turns position 0); lra.
Qed.

Lemma wrap_position_idem (position : R) :
  wrap_position (wrap_position position) = wrap_position position.
Proof. apply wrap_position_id, wrap_position_range. Qed.

(** ** The branches of the elevation evaluation *)

Ltac decide_branches :=
  repeat match goal with
  | |- context [Rge_dec ?a ?b] => destruct (Rge_dec a b)
  | |- context [Rgt_dec ?a ?b] => destruct (Rgt_dec a b)
  | |- context [Rle_dec ?a ?b] => destruct (Rle_dec a b)
  | |- context [Rlt_dec ?a ?b] => destruct (Rlt_dec a b)
  | |- context [Req_dec_T ?a ?b] => destruct (Req_dec_T a b)
  | |- context [MotionState_eq_dec ?a ?b] => destruct (MotionState_eq_dec a b)
  | |- context [in_dec ?d ?a ?l] => destruct (in_dec d a l)
  end.


Module ElevationFacts.
Import ElevationMotion.

(** At or after the end time, a stop or a move holds the end position. *)
Lemma evaluate_hold (self : BaseLlcMotion) (tai : R) :
  tai >= _end_tai self ->
  holds_at_end (_commanded_motion_state self) ->
  get_position_velocity_and_motion_state self tai
  = Ok (wrap_position (_end_position self), 0, STOPPED).
Proof.
  intros Hend Hin.
  unfold get_position_velocity_and_motion_state, evaluate_branches.
  destruct (Rge_dec tai (_end_tai self)); [|contradiction].
  destruct (in_dec _ _ _); [reflexivity|contradiction].
Qed.


Lemma evaluate_crawl_max (self : BaseLlcMotion) (tai : R) :
  tai >= _end_tai self ->
  ~ holds_at_end (_commanded_motion_state self) ->
  crawl_position self tai >= _max_position self ->
  get_position_velocity_and_motion_state self tai
  = Ok (wrap_position (_max_position self), 0, STOPPED).
Proof.
  intros Hend Hin Hmax.
  unfold get_position_velocity_and_motion_state, evaluate_branches.
  destruct (Rge_dec tai (_end_tai self)); [|contradiction].
  destruct (in_dec _ _ _); [contradiction|].
  fold (crawl_position self tai).
  destruct (Rge_dec (crawl_position self tai) (_max_position self));
    [|contradiction].
  destruct (Req_dec_T (_crawl_velocity self) 0); reflexivity.
Qed.

Lemma evaluate_crawl_min (self : BaseLlcMotion) (tai : R) :
  tai >= _end_tai self ->
  ~ holds_at_end (_commanded_motion_state self) ->
  crawl_position self tai < _max_position self ->
  crawl_position self tai <= _min_position self ->
  get_position_velocity_and_motion_state self tai
  = Ok (wrap_position (_min_position self), 0, STOPPED).
Proof.
  intros Hend Hin Hmax Hmin.
  unfold get_position_velocity_and_motion_state, evaluate_branches.
  destruct (Rge_dec tai (_end_tai self)); [|contradiction].
  destruct (in_dec _ _ _); [contradiction|].
  fold (crawl_position self tai).
  destruct (Rge_dec (crawl_position self tai) (_max_position self)); [lra|].
  destruct (Rle_dec (crawl_position self tai) (_min_position self));
    [|contradiction].
  destruct (Req_dec_T (_crawl_velocity self) 0); reflexivity.
Qed.

Lemma evaluate_crawl_inside (self : BaseLlcMotion) (tai : R) :
  tai >= _end_tai self ->
  ~ holds_at_end (_commanded_motion_state self) ->
  _min_position self < crawl_position self tai < _max_position self ->
  get_position_velocity_and_motion_state self tai
  = Ok (wrap_position (crawl_position self tai),
        _crawl_velocity self,
        if Req_dec_T (_crawl_velocity self) 0 then STOPPED else CRAWLING).
Proof.
  intros Hend Hin [Hmin Hmax].
  unfold get_position_velocity_and_motion_state, evaluate_branches.
  destruct (Rge_dec tai (_end_tai self)); [|contradiction].
  destruct (in_dec _ _ _); [contradiction|].
  fold (crawl_position self tai).
  destruct (Rge_dec (crawl_position self tai) (_max_position self)); [lra|].
  destruct (Rle_dec (crawl_position self tai) (_min_position self)); [lra|].
  destruct (Req_dec_T (_crawl_velocity self) 0) as [E|E]; simpl.
  - rewrite E. reflexivity.
  - reflexivity.
Qed.


Lemma evaluate_transit (self : BaseLlcMotion) (tai : R) :
  _start_tai self <= tai < _end_tai self ->
  get_position_velocity_and_motion_state self tai
  = Ok (wrap_position (transit_position self tai),
        transit_velocity self, transit_state self).
Proof.
  intros [Hs He].
  unfold get_position_velocity_and_motion_state, evaluate_branches, py_div,
    transit_velocity, transit_state.
  destruct (Rge_dec tai (_end_tai self)); [lra|].
  destruct (Rlt_dec tai (_start_tai self)); [lra|].
  destruct (Req_dec_T (_end_tai self - _start_tai self) 0); [lra|].
  simpl.
  destruct (MotionState_eq_dec (_commanded_motion_state self) STOPPING);
    destruct (Rlt_dec (_get_distance self) 0); reflexivity.
Qed.

Lemma evaluate_out_of_order (self : BaseLlcMotion) (tai : R) :
  tai < _end_tai self -> tai < _start_tai self ->
  get_position_velocity_and_motion_state self tai
  = Raise (ValueError TaiBeforeStart).
Proof.
  intros He Hs.
  unfold get_position_velocity_and_motion_state, evaluate_branches.
  destruct (Rge_dec tai (_end_tai self)); [lra|].
  destruct (Rlt_dec tai (_start_tai self)); [reflexivity|lra].
Qed.

(** Every evaluation at or after the end time returns a result. *)
Lemma evaluate_after_end_ok (self : BaseLlcMotion) (tai : R) :
  tai >= _end_tai self ->
  is_ok (get_position_velocity_and_motion_state self tai).
Proof.
  intros Hend.
  unfold get_position_velocity_and_motion_state, evaluate_branches.
  destruct (Rge_dec tai (_end_tai self)); [|contradiction].
  decide_branches; exact I.
Qed.

(** The only exception of the evaluation. *)
Lemma evaluate_raises (self : BaseLlcMotion) (tai : R) (e : exn) :
  get_position_velocity_and_motion_state self tai = Raise e ->
  e = ValueError TaiBeforeStart.
Proof.
  intros Hraise.
  destruct (Rge_dec tai (_end_tai self)) as [He|He].
  - pose proof (evaluate_after_end_ok self tai He) as Hok.
    rewrite Hraise in Hok. contradiction.
  - destruct (Rlt_dec tai (_start_tai self)) as [Hs|Hs].
    + rewrite evaluate_out_of_order in Hraise by lra. congruence.
    + rewrite evaluate_transit in Hraise by lra. discriminate.
Qed.

(** The returned position is the normalisation of the position computed by
    the branches. *)
Lemma evaluate_inv (self : BaseLlcMotion) (tai p v : R) (m : MotionState) :
  get_position_velocity_and_motion_state self tai = Ok (p, v, m) ->
  exists raw, evaluate_branches self tai = Ok (raw, v, m)
              /\ p = wrap_position raw.
Proof.
  unfold get_position_velocity_and_motion_state.
  destruct (evaluate_branches self tai) as [[[raw v'] m']|e]; simpl;
    intros H; [|discriminate].
  injection H as <- <- <-. exists raw. split; reflexivity.
Qed.

Lemma evaluate_position_range (self : BaseLlcMotion) (tai p v : R)
  (m : MotionState) :
  get_position_velocity_and_motion_state self tai = Ok (p, v, m) ->
  0 <= p < 2 * PI.
Proof.
  intros H. destruct (evaluate_inv _ _ _ _ _ H) as (raw & _ & ->).
  apply wrap_position_range.
Qed.

Lemma stop_ok (self : BaseLlcMotion) (start_tai p v : R) (m : MotionState) :
  get_position_velocity_and_motion_state self start_tai = Ok (p, v, m) ->
  stop self start_tai = (Ok tt, stopped_at self start_tai p).
Proof. intros H. unfold stop. rewrite H. reflexivity. Qed.

Lemma stop_inv (self self' : BaseLlcMotion) (start_tai : R) :
  stop self start_tai = (Ok tt, self') ->
  exists p v m,
    get_position_velocity_and_motion_state self start_tai = Ok (p, v, m)
    /\ self' = stopped_at self start_tai p.
Proof.
  unfold stop.
  destruct (get_position_velocity_and_motion_state self start_tai)
    as [[[p v] m]|e]; intros H; [|discriminate].
  injection H as <-. exists p, v, m. split; reflexivity.
Qed.

Lemma two_PI_gt_6 : 6 < 2 * PI.
Proof. pose proof PI2_3_2. lra. Qed.

(** Stopping [moving_segment] at time 5, after its end time 1. *)
Lemma stop_moving_segment_late :
  stop moving_segment 5 = (Ok tt, stopped_at moving_segment 5 1).
Proof.
  apply (stop_ok _ _ _ 0 STOPPED).
  rewrite evaluate_hold.
  - simpl. rewrite wrap_position_id; [reflexivity|].
    pose proof two_PI_gt_6. lra.
  - simpl. lra.
  - simpl. unfold holds_at_end. simpl. tauto.
Qed.


End ElevationFacts.

(** ** Stated properties of the elevation model *)

Import ElevationMotion ElevationFacts.

(** C10.  The division by [_end_tai - _start_tai] of the in-transit branch
    never divides by zero: the branch is entered only when neither
    [tai >= _end_tai] nor [tai < _start_tai] holds, which makes the divisor
    positive.  Hence no evaluation raises ZeroDivisionError, and every
    evaluation at a time not before the start time returns a result. *)
Theorem in_transit_division_is_defined (self : BaseLlcMotion) (tai : R) :
  (~ tai >= _end_tai self -> ~ tai < _start_tai self ->
     _end_tai self - _start_tai self > 0 /\
     py_div (tai - _start_tai self) (_end_tai self - _start_tai self)
     = Ok ((tai - _start_tai self) / (_end_tai self - _start_tai self)))
  /\ get_position_velocity_and_motion_state self tai <> Raise ZeroDivisionError
  /\ (_start_tai self <= tai ->
      is_ok (get_position_velocity_and_motion_state self tai)).
Proof.
  split; [|split].
  - intros He Hs.
    assert (Hpos : _end_tai self - _start_tai self > 0) by lra.
    split; [exact Hpos|].
    unfold py_div.
    destruct (Req_dec_T (_end_tai self - _start_tai self) 0); [lra|reflexivity].
  - destruct (Rge_dec tai (_end_tai self)) as [He|He].
    + pose proof (evaluate_after_end_ok self tai He) as Hok.
      destruct (get_position_velocity_and_motion_state self tai);
        [discriminate|contradiction].
    + destruct (Rlt_dec tai (_start_tai self)) as [Hs|Hs].
      * rewrite evaluate_out_of_order by lra. discriminate.
      * rewrite evaluate_transit by lra. discriminate.
  - intros Hs.
    destruct (Rge_dec tai (_end_tai self)) as [He|He].
    + apply evaluate_after_end_ok, He.
    + rewrite evaluate_transit by lra. exact I.
Qed.

Lemma in_transit_division_is_defined_witness :
  _start_tai moving_segment <= 1 / 2 /\
  is_ok (get_position_velocity_and_motion_state moving_segment (1 / 2)).
Proof.
  assert (H : _start_tai moving_segment <= 1 / 2) by (simpl; lra).
  split; [exact H|].
  exact (proj2 (proj2 (in_transit_division_is_defined moving_segment (1 / 2))) H).
Defined.

(** C6.  [park] raises NotImplementedError at every time and on every
    object; the object after the call is the object before it, attribute by
    attribute, and answers every query as before. *)
Theorem park_is_not_implemented (self : BaseLlcMotion) (start_tai : R) :
  fst (park self start_tai) = Raise NotImplementedError
  /\ snd (park self start_tai) = self
  /\ (_start_position (snd (park self start_tai)) = _start_position self
      /\ _end_position (snd (park self start_tai)) = _end_position self
      /\ _start_tai (snd (park self start_tai)) = _start_tai self
      /\ _end_tai (snd (park self start_tai)) = _end_tai self
      /\ _crawl_velocity (snd (park self start_tai)) = _crawl_velocity self
      /\ _commanded_motion_state (snd (park self start_tai))
         = _commanded_motion_state self)
  /\ forall tai,
       get_position_velocity_and_motion_state (snd (park self start_tai)) tai
       = get_position_velocity_and_motion_state self tai.
Proof.
  unfold park. simpl.
  split; [reflexivity|].
  split; [reflexivity|].
  split; [repeat split|].
  intros tai. reflexivity.
Qed.


(** C2.  Where the code departs from the statement.  [moving_segment] starts at
    time 0 and ends at time 1; a stop at time 5 is accepted and leaves an
    object whose start time is 5 and whose end time is still 1.  A query at
    time 3 precedes that start time, and the evaluation answers it, with
    the stop position, velocity 0 and STOPPED, instead of raising the
    out-of-order-time error: the comparison with the start time is reached
    only after [tai >= _end_tai] has failed. *)
Theorem late_stop_answers_a_query_before_its_start_tai :
  stop moving_segment 5 = (Ok tt, stopped_late_segment)
  /\ _start_tai stopped_late_segment = 5
  /\ _end_tai stopped_late_segment = 1
  /\ 3 < _start_tai stopped_late_segment
  /\ get_position_velocity_and_motion_state stopped_late_segment 3
     = Ok (1, 0, STOPPED)
  /\ get_position_velocity_and_motion_state stopped_late_segment 3
     <> Raise (ValueError TaiBeforeStart).
Proof.
  unfold stopped_late_segment. rewrite stop_moving_segment_late. simpl.
  assert (Heval : get_position_velocity_and_motion_state
                    (stopped_at moving_segment 5 1) 3 = Ok (1, 0, STOPPED)).
  { rewrite evaluate_hold.
    - simpl. rewrite wrap_position_id; [reflexivity|].
      pose proof two_PI_gt_6. lra.
    - simpl. lra.
    - unfold holds_at_end. simpl. tauto. }
  repeat split; try reflexivity; try lra.
  - exact Heval.
  - rewrite Heval. discriminate.
Qed.

(** C1.  After an accepted [stop] at time [t], every evaluation at a time
    [tai >= t] returns the position that the evaluation at [t] returned
    before the stop, the velocity 0 and the state STOPPED, whatever segment
    was installed before. *)
Theorem stop_freezes_state (self self' : BaseLlcMotion) (t : R) :
  stop self t = (Ok tt, self') ->
  exists p v m,
    get_position_velocity_and_motion_state self t = Ok (p, v, m) /\
    forall tai, tai >= t ->
      get_position_velocity_and_motion_state self' tai = Ok (p, 0, STOPPED).
Proof.
  intros Hstop.
  destruct (stop_inv _ _ _ Hstop) as (p & v & m & Heval & ->).
  exists p, v, m. split; [exact Heval|].
  intros tai Htai.
  pose proof (evaluate_position_range _ _ _ _ _ Heval) as Hrange.
  destruct (Rge_dec tai (_end_tai self)) as [He|He].
  - rewrite evaluate_hold.
    + simpl. rewrite wrap_position_id by exact Hrange. reflexivity.
    + exact He.
    + unfold holds_at_end. simpl. tauto.
  - rewrite evaluate_transit by (simpl; lra).
    unfold transit_position, transit_velocity, transit_state, _get_distance.
    simpl.
    replace (p + (p - p) * ((tai - t) / (_end_tai self - t))) with p by ring.
    rewrite wrap_position_id by exact Hrange. reflexivity.
Qed.

Lemma stop_freezes_state_witness :
  stop moving_segment (1 / 2) = (Ok tt, stopped_at moving_segment (1 / 2) (1 / 2))
  /\ exists p v m,
       get_position_velocity_and_motion_state moving_segment (1 / 2)
       = Ok (p, v, m) /\
       forall tai, tai >= 1 / 2 ->
         get_position_velocity_and_motion_state
           (stopped_at moving_segment (1 / 2) (1 / 2)) tai
         = Ok (p, 0, STOPPED).
Proof.
  assert (H : stop moving_segment (1 / 2)
              = (Ok tt, stopped_at moving_segment (1 / 2) (1 / 2))).
  { apply (stop_ok _ _ _ 1 MOVING).
    rewrite evaluate_transit by (simpl; lra).
    unfold transit_position, transit_velocity, transit_state, _get_distance.
    simpl. destruct (Rlt_dec (1 - 0) 0); [lra|].
    replace (0 + (1 - 0) * ((1 / 2 - 0) / (1 - 0))) with (1 / 2) by field.
    rewrite wrap_position_id; [reflexivity|].
    pose proof two_PI_gt_6. lra. }
  split; [exact H|].
  exact (stop_freezes_state moving_segment _ (1 / 2) H).
Defined.

(** ** The base method *)

Section SetTarget.

Variable axis_evaluate : BaseLlcMotion -> R -> result (R * R * MotionState).
Variable axis_distance : BaseLlcMotion -> R.

Lemma set_target_too_fast (self : BaseLlcMotion)
  (start_tai end_position crawl_velocity : R) (motion_state : MotionState) :
  Rabs crawl_velocity > _max_speed self ->
  set_target_position_and_velocity axis_evaluate axis_distance
    self start_tai end_position crawl_velocity motion_state
  = (Raise (ValueError SpeedAboveMax), self).
Proof.
  intros H. unfold set_target_position_and_velocity.
  destruct (Rgt_dec (Rabs crawl_velocity) (_max_speed self));
    [reflexivity|contradiction].
Qed.

(** What an accepted command has checked and installed. *)
Lemma set_target_inv (self self' : BaseLlcMotion)
  (start_tai end_position crawl_velocity duration : R)
  (motion_state : MotionState) :
  set_target_position_and_velocity axis_evaluate axis_distance
    self start_tai end_position crawl_velocity motion_state
  = (Ok duration, self') ->
  exists position v m,
    axis_evaluate self start_tai = Ok (position, v, m)
    /\ Rabs crawl_velocity <= _max_speed self
    /\ _start_tai self <= start_tai
    /\ self' = install_segment self position start_tai (start_tai + duration)
                               end_position crawl_velocity motion_state
    /\ ((motion_state = CRAWLING /\ duration = 0)
        \/ (motion_state <> CRAWLING /\ _max_speed self <> 0
            /\ duration
               = Rabs (axis_distance
                         (install_segment self position start_tai start_tai
                            end_position crawl_velocity motion_state))
                 / _max_speed self)).
Proof.
  unfold set_target_position_and_velocity, py_div.
  destruct (Rgt_dec (Rabs crawl_velocity) (_max_speed self)) as [Hv|Hv];
    [discriminate|].
  destruct (Rlt_dec start_tai (_start_tai self)) as [Ht|Ht]; [discriminate|].
  destruct (axis_evaluate self start_tai) as [[[position v] m]|e];
    [|discriminate].
  destruct (MotionState_eq_dec motion_state CRAWLING) as [Hc|Hc].
  - intros H. injection H as <- <-.
    exists position, v, m. repeat split; try lra. left. split; [exact Hc|reflexivity].
  - destruct (Req_dec_T (_max_speed self) 0) as [Hz|Hz]; [discriminate|].
    intros H. injection H as <- <-.
    exists position, v, m. repeat split; try lra. right. repeat split; assumption.
Qed.

Lemma set_target_duration_nonneg (self self' : BaseLlcMotion)
  (start_tai end_position crawl_velocity duration : R)
  (motion_state : MotionState) :
  set_target_position_and_velocity axis_evaluate axis_distance
    self start_tai end_position crawl_velocity motion_state
  = (Ok duration, self') ->
  0 <= duration.
Proof.
  intros H.
  destruct (set_target_inv _ _ _ _ _ _ _ H)
    as (position & v & m & _ & Hv & _ & _ & [[_ ->]|(_ & Hz & ->)]).
  - lra.
  - pose proof (Rabs_pos crawl_velocity).
    apply Rmult_le_pos; [apply Rabs_pos|].
    apply Rlt_le, Rinv_0_lt_compat. lra.
Qed.

(** What a command that passes every check returns and installs. *)
Lemma set_target_accepted (self : BaseLlcMotion)
  (start_tai end_position crawl_velocity current v : R)
  (m motion_state : MotionState) :
  Rabs crawl_velocity <= _max_speed self ->
  0 < _max_speed self ->
  _start_tai self <= start_tai ->
  axis_evaluate self start_tai = Ok (current, v, m) ->
  motion_state <> CRAWLING ->
  let distance :=
    axis_distance (install_segment self current start_tai start_tai
                     end_position crawl_velocity motion_state) in
  set_target_position_and_velocity axis_evaluate axis_distance
    self start_tai end_position crawl_velocity motion_state
  = (Ok (Rabs distance / _max_speed self),
     install_segment self current start_tai
       (start_tai + Rabs distance / _max_speed self)
       end_position crawl_velocity motion_state).
Proof.
  intros Hv Hm Ht Heval Hc distance.
  unfold set_target_position_and_velocity, py_div.
  destruct (Rgt_dec (Rabs crawl_velocity) (_max_speed self)); [lra|].
  destruct (Rlt_dec start_tai (_start_tai self)); [lra|].
  rewrite Heval.
  destruct (MotionState_eq_dec motion_state CRAWLING); [contradiction|].
  destruct (Req_dec_T (_max_speed self) 0); [lra|].
  reflexivity.
Qed.

(** An axis whose evaluation raises nothing but the out-of-order-time
    error never makes the command fail with the velocity error once the
    velocity has been accepted. *)
Hypothesis axis_evaluate_raises :
  forall self tai e,
    axis_evaluate self tai = Raise e -> e = ValueError TaiBeforeStart.

Lemma set_target_accepted_velocity (self : BaseLlcMotion)
  (start_tai end_position crawl_velocity : R) (motion_state : MotionState) :
  Rabs crawl_velocity <= _max_speed self ->
  fst (set_target_position_and_velocity axis_evaluate axis_distance
         self start_tai end_position crawl_velocity motion_state)
  <> Raise (ValueError SpeedAboveMax).
Proof.
  intros Hv. unfold set_target_position_and_velocity, py_div.
  destruct (Rgt_dec (Rabs crawl_velocity) (_max_speed self)); [lra|].
  destruct (Rlt_dec start_tai (_start_tai self)); [simpl; discriminate|].
  destruct (axis_evaluate self start_tai) as [[[position v] m]|e] eqn:Hev.
  - destruct (MotionState_eq_dec motion_state CRAWLING);
      [simpl; discriminate|].
    destruct (Req_dec_T (_max_speed self) 0); simpl; discriminate.
  - apply axis_evaluate_raises in Hev. subst e. simpl. discriminate.
Qed.

End SetTarget.

(** ** The azimuth evaluation *)

Module AzimuthFacts.
Import AzimuthMotion.

Lemma azimuth_evaluate_raises (self : BaseLlcMotion) (tai : R) (e : exn) :
  get_position_velocity_and_motion_state self tai = Raise e ->
  e = ValueError TaiBeforeStart.
Proof.
  unfold get_position_velocity_and_motion_state, evaluate_branches, py_div.
  destruct (Rge_dec tai (_end_tai self)) as [He|He].
  - decide_branches; simpl; discriminate.
  - destruct (Rlt_dec tai (_start_tai self)) as [Hs|Hs].
    + simpl. congruence.
    + destruct (Req_dec_T (_end_tai self - _start_tai self) 0); [lra|].
      simpl. decide_branches; simpl; discriminate.
Qed.

(** *** The choice between two signed distances *)

Lemma closer_l (a b : R) : Rabs a < Rabs b -> closer a b = a.
Proof.
  intros H. unfold closer.
  destruct (Rlt_dec (Rabs a) (Rabs b)); [reflexivity|contradiction].
Qed.

Lemma closer_r (a b : R) : Rabs b < Rabs a -> closer a b = b.
Proof.
  intros H. unfold closer.
  destruct (Rlt_dec (Rabs a) (Rabs b)); [lra|].
  destruct (Rlt_dec (Rabs b) (Rabs a)); [reflexivity|contradiction].
Qed.

Lemma closer_cases (a b : R) : closer a b = a \/ closer a b = b.
Proof.
  unfold closer.
  destruct (Rlt_dec (Rabs a) (Rabs b)); [left; reflexivity|].
  destruct (Rlt_dec (Rabs b) (Rabs a)); [right; reflexivity|].
  unfold Rmax. destruct (Rle_dec a b); [right|left]; reflexivity.
Qed.

Lemma closer_abs (a b : R) :
  Rabs (closer a b) <= Rabs a /\ Rabs (closer a b) <= Rabs b.
Proof.
  unfold closer.
  destruct (Rlt_dec (Rabs a) (Rabs b)); [lra|].
  destruct (Rlt_dec (Rabs b) (Rabs a)); [lra|].
  unfold Rmax. destruct (Rle_dec a b); lra.
Qed.

Lemma closer_tie_l (a b : R) :
  Rabs (closer a b) = Rabs a -> a <= closer a b.
Proof.
  unfold closer.
  destruct (Rlt_dec (Rabs a) (Rabs b)); [lra|].
  destruct (Rlt_dec (Rabs b) (Rabs a)); [lra|].
  intros _. apply Rmax_l.
Qed.

Lemma closer_tie_r (a b : R) :
  Rabs (closer a b) = Rabs b -> b <= closer a b.
Proof.
  unfold closer.
  destruct (Rlt_dec (Rabs a) (Rabs b)); [lra|].
  destruct (Rlt_dec (Rabs b) (Rabs a)); [lra|].
  intros _. apply Rmax_r.
Qed.

Lemma shortest_path_distance_candidate (current target : R) :
  candidate current target (shortest_path_distance current target).
Proof.
  unfold candidate, shortest_path_distance.
  destruct (closer_cases (closer (target - current) (target - current + 2 * PI))
                         (target - current - 2 * PI)) as [->| ->].
  - destruct (closer_cases (target - current) (target - current + 2 * PI))
      as [->| ->]; tauto.
  - tauto.
Qed.

Lemma shortest_path_distance_minimal (current target d : R) :
  candidate current target d ->
  Rabs (shortest_path_distance current target) <= Rabs d.
Proof.
  unfold candidate, shortest_path_distance.
  set (d0 := target - current).
  pose proof (closer_abs (closer d0 (d0 + 2 * PI)) (d0 - 2 * PI)) as [H1 H2].
  pose proof (closer_abs d0 (d0 + 2 * PI)) as [H3 H4].
  intros [->|[->| ->]]; lra.
Qed.

Lemma shortest_path_distance_tie (current target d : R) :
  candidate current target d ->
  Rabs d = Rabs (shortest_path_distance current target) ->
  d <= shortest_path_distance current target.
Proof.
  unfold candidate, shortest_path_distance.
  set (d0 := target - current).
  set (c := closer d0 (d0 + 2 * PI)).
  pose proof (closer_abs c (d0 - 2 * PI)) as [H1 H2].
  pose proof (closer_abs d0 (d0 + 2 * PI)) as [H3 H4]. fold c in H3, H4.
  intros [->|[->| ->]] Htie.
  - assert (Hc : d0 <= c) by (apply closer_tie_l; fold c; lra).
    assert (c <= closer c (d0 - 2 * PI)) by (apply closer_tie_l; lra).
    lra.
  - assert (Hc : d0 + 2 * PI <= c) by (apply closer_tie_r; fold c; lra).
    assert (c <= closer c (d0 - 2 * PI)) by (apply closer_tie_l; lra).
    lra.
  - apply closer_tie_r. lra.
Qed.

(** *** The branches of the azimuth evaluation used by a move *)

Lemma evaluate_init (start_position max_speed start_tai : R) :
  0 <= start_position < 2 * PI ->
  get_position_velocity_and_motion_state
    (init start_position max_speed start_tai) start_tai
  = Ok (start_position, 0, STOPPED).
Proof.
  intros H.
  unfold get_position_velocity_and_motion_state, evaluate_branches. simpl.
  destruct (Rge_dec start_tai start_tai); [|lra].
  simpl. rewrite wrap_position_id by exact H. reflexivity.
Qed.

Lemma evaluate_moving (self : BaseLlcMotion) (tai : R) :
  _commanded_motion_state self = MOVING ->
  _start_tai self <= tai < _end_tai self ->
  get_position_velocity_and_motion_state self tai
  = Ok (wrap_position
          (_start_position self
           + _get_distance self
             * ((tai - _start_tai self) / (_end_tai self - _start_tai self))),
        (if Rlt_dec (_get_distance self) 0
         then - _max_speed self else _max_speed self),
        MOVING).
Proof.
  intros Hc [Hs He].
  unfold get_position_velocity_and_motion_state, evaluate_branches, py_div.
  destruct (Rge_dec tai (_end_tai self)); [lra|].
  destruct (Rlt_dec tai (_start_tai self)); [lra|].
  destruct (Req_dec_T (_end_tai self - _start_tai self) 0); [lra|].
  simpl. rewrite Hc.
  destruct (MotionState_eq_dec MOVING STOPPING); [discriminate|].
  destruct (MotionState_eq_dec MOVING PARKING); [discriminate|].
  reflexivity.
Qed.

(** An accepted move returns the shortest-path distance from the current
    position divided by the maximum speed. *)
Lemma set_target_moving (self : BaseLlcMotion)
  (start_tai end_position crawl_velocity current v : R) (m : MotionState) :
  Rabs crawl_velocity <= _max_speed self ->
  0 < _max_speed self ->
  _start_tai self <= start_tai ->
  get_position_velocity_and_motion_state self start_tai = Ok (current, v, m) ->
  set_target_position_and_velocity self start_tai end_position crawl_velocity
    MOVING
  = (Ok (Rabs (shortest_path_distance current end_position) / _max_speed self),
     install_segment self current start_tai
       (start_tai
        + Rabs (shortest_path_distance current end_position) / _max_speed self)
       end_position crawl_velocity MOVING).
Proof.
  intros Hv Hm Ht Heval.
  apply (set_target_accepted get_position_velocity_and_motion_state
           _get_distance self start_tai end_position crawl_velocity
           current v m MOVING); try assumption.
  discriminate.
Qed.

End AzimuthFacts.


(** ** Commands *)

(** C8.  On either axis, a command whose crawl velocity exceeds the maximum
    speed in absolute value raises the velocity error and leaves the object
    as it was; a command whose crawl velocity does not exceed it never
    raises the velocity error. *)
Theorem crawl_velocity_above_max_speed_is_rejected
  (a : axis) (self : BaseLlcMotion)
  (start_tai end_position crawl_velocity : R) (motion_state : MotionState) :
  (Rabs crawl_velocity > _max_speed self ->
   axis_set_target_position_and_velocity a self start_tai end_position
     crawl_velocity motion_state
   = (Raise (ValueError SpeedAboveMax), self))
  /\ (Rabs crawl_velocity <= _max_speed self ->
      fst (axis_set_target_position_and_velocity a self start_tai end_position
             crawl_velocity motion_state)
      <> Raise (ValueError SpeedAboveMax)).
Proof.
  split; intros Hv.
  - destruct a; apply set_target_too_fast; exact Hv.
  - destruct a; apply set_target_accepted_velocity; try exact Hv.
    + apply AzimuthFacts.azimuth_evaluate_raises.
    + apply ElevationFacts.evaluate_raises.
Qed.

(** The scenario of [test_too_high]: at 10 degrees with a maximum speed of
    4 degrees per second, a crawl velocity of 5 degrees per second. *)
Lemma crawl_velocity_above_max_speed_is_rejected_witness :
  Rabs (radians 5) > _max_speed (AzimuthMotion.init (radians 10) (radians 4) 10001)
  /\ axis_set_target_position_and_velocity Azimuth
       (AzimuthMotion.init (radians 10) (radians 4) 10001)
       10001 (radians 11) (radians 5) MOVING
     = (Raise (ValueError SpeedAboveMax),
        AzimuthMotion.init (radians 10) (radians 4) 10001).
Proof.
  assert (H : Rabs (radians 5)
              > _max_speed (AzimuthMotion.init (radians 10) (radians 4) 10001)).
  { simpl. unfold radians. pose proof PI_RGT_0.
    rewrite Rabs_pos_eq; lra. }
  split; [exact H|].
  exact (proj1 (crawl_velocity_above_max_speed_is_rejected Azimuth
                  (AzimuthMotion.init (radians 10) (radians 4) 10001)
                  10001 (radians 11) (radians 5) MOVING) H).
Defined.

(** C3, counterexample.  [moving_segment] has its start time before its end
    time; a stop at time 5 is accepted and leaves an object whose end time 1
    precedes its start time 5. *)
Lemma stop_after_end_tai_inverts_times :
  ~ (_start_tai moving_segment <= _end_tai moving_segment ->
     fst (stop moving_segment 5) = Ok tt ->
     _end_tai (snd (stop moving_segment 5))
     >= _start_tai (snd (stop moving_segment 5))).
Proof.
  rewrite stop_moving_segment_late. simpl. intros H.
  assert (H1 : 0 <= 1) by lra.
  specialize (H H1 eq_refl). lra.
Qed.

(** C3, as amended.  An accepted [set_target_position_and_velocity] installs
    a segment that starts at the command time and ends [duration >= 0]
    later.  An accepted [stop] at time [t] assigns [t] to the start time and
    leaves the end time as it was, so that afterwards the end time is at
    least the start time exactly when [t] does not exceed the end time of
    the segment that was stopped. *)
Theorem segment_times_after_commands :
  (forall (a : axis) (self self' : BaseLlcMotion)
          (start_tai end_position crawl_velocity duration : R)
          (motion_state : MotionState),
      axis_set_target_position_and_velocity a self start_tai end_position
        crawl_velocity motion_state = (Ok duration, self') ->
      _start_tai self' = start_tai
      /\ _end_tai self' = start_tai + duration
      /\ _end_tai self' >= _start_tai self')
  /\ (forall (self self' : BaseLlcMotion) (t : R),
         stop self t = (Ok tt, self') ->
         _start_tai self' = t
         /\ _end_tai self' = _end_tai self
         /\ (_end_tai self' >= _start_tai self' <-> t <= _end_tai self)).
Proof.
  split.
  - intros a self self' start_tai end_position crawl_velocity duration
      motion_state H.
    assert (Hd : 0 <= duration)
      by (destruct a; exact (set_target_duration_nonneg _ _ _ _ _ _ _ _ _ H)).
    assert (Hs : exists position,
               self' = install_segment self position start_tai
                         (start_tai + duration) end_position crawl_velocity
                         motion_state).
    { destruct a;
        destruct (set_target_inv _ _ _ _ _ _ _ _ _ H)
          as (position & _ & _ & _ & _ & _ & -> & _);
        exists position; reflexivity. }
    destruct Hs as (position & ->). simpl. repeat split; lra.
  - intros self self' t H.
    destruct (stop_inv _ _ _ H) as (p & v & m & _ & ->). simpl.
    repeat split; lra.
Qed.

Lemma segment_times_after_commands_witness :
  stop moving_segment 5 = (Ok tt, stopped_at moving_segment 5 1)
  /\ _start_tai (stopped_at moving_segment 5 1) = 5
  /\ _end_tai (stopped_at moving_segment 5 1) = _end_tai moving_segment
  /\ (_end_tai (stopped_at moving_segment 5 1)
      >= _start_tai (stopped_at moving_segment 5 1)
      <-> 5 <= _end_tai moving_segment).
Proof.
  split; [exact stop_moving_segment_late|].
  exact (proj2 segment_times_after_commands moving_segment
           (stopped_at moving_segment 5 1) 5 stop_moving_segment_late).
Defined.

(** ** Bounds and normalisation *)

Lemma crawling_does_not_hold : ~ holds_at_end CRAWLING.
Proof. unfold holds_at_end. simpl. intuition discriminate. Qed.

(** In the crawl branch the position computed before the normalisation lies
    between the bounds. *)
Lemma crawl_branch_within_bounds (self : BaseLlcMotion) (tai raw v : R)
  (m : MotionState) :
  tai >= _end_tai self ->
  ~ holds_at_end (_commanded_motion_state self) ->
  _min_position self <= _max_position self ->
  evaluate_branches self tai = Ok (raw, v, m) ->
  _min_position self <= raw <= _max_position self.
Proof.
  intros He Hin Hb. unfold evaluate_branches.
  destruct (Rge_dec tai (_end_tai self)); [|contradiction].
  destruct (in_dec _ _ _); [contradiction|].
  fold (crawl_position self tai).
  destruct (Rge_dec (crawl_position self tai) (_max_position self));
    [|destruct (Rle_dec (crawl_position self tai) (_min_position self))];
    destruct (Req_dec_T (_crawl_velocity self) 0);
    intros H; injection H as <- _ _; lra.
Qed.

Lemma wrap_position_negative (position : R) :
  - (2 * PI) <= position < 0 -> wrap_position position = position + 2 * PI.
Proof.
  intros H. rewrite (wrap_position_turns position (-1)); lra.
Qed.

(** The evaluation of [crawl_down_segment] at time 2. *)
Lemma crawl_down_segment_at_2 :
  get_position_velocity_and_motion_state crawl_down_segment 2
  = Ok (2 * PI - 1, 0, STOPPED).
Proof.
  rewrite evaluate_crawl_min.
  - simpl. rewrite wrap_position_negative.
    + do 3 f_equal. ring.
    + pose proof two_PI_gt_6. lra.
  - simpl. lra.
  - simpl. apply crawling_does_not_hold.
  - unfold crawl_position. simpl. lra.
  - unfold crawl_position. simpl. lra.
Qed.

(** The evaluation of [crawl_down_segment] at time 1, when the crawl
    position is the minimum position itself. *)
Lemma crawl_down_segment_at_1 :
  get_position_velocity_and_motion_state crawl_down_segment 1
  = Ok (2 * PI - 1, 0, STOPPED).
Proof.
  rewrite evaluate_crawl_min.
  - simpl. rewrite wrap_position_negative.
    + do 3 f_equal. ring.
    + pose proof two_PI_gt_6. lra.
  - simpl. lra.
  - simpl. apply crawling_does_not_hold.
  - unfold crawl_position. simpl. lra.
  - unfold crawl_position. simpl. lra.
Qed.

(** C4.  Where the code departs from the statement.  [crawl_down_segment] crawls
    downward from 0 at 1 rad/s on a model whose minimum position is -1.
    At time 2 the crawl position, -2, is below the minimum position; the
    code assigns the minimum position, velocity 0 and STOPPED, and the
    normalisation that follows returns [2 pi - 1], which is not the
    minimum position. *)
Theorem clamp_at_negative_minimum_returns_a_wrapped_position :
  _commanded_motion_state crawl_down_segment = CRAWLING
  /\ 2 >= _end_tai crawl_down_segment
  /\ crawl_position crawl_down_segment 2 <= _min_position crawl_down_segment
  /\ get_position_velocity_and_motion_state crawl_down_segment 2
     = Ok (2 * PI - 1, 0, STOPPED)
  /\ 2 * PI - 1 <> _min_position crawl_down_segment
  /\ evaluate_branches crawl_down_segment 2
     = Ok (_min_position crawl_down_segment, 0, STOPPED).
Proof.
  pose proof two_PI_gt_6 as Hpi.
  split; [reflexivity|]. split; [simpl; lra|].
  split; [unfold crawl_position; simpl; lra|].
  split; [exact crawl_down_segment_at_2|].
  split; [simpl; lra|].
  unfold evaluate_branches. simpl.
  destruct (Rge_dec 2 0); [|lra]. simpl.
  destruct (Rge_dec (0 + -1 * (2 - 0)) 1); [lra|].
  destruct (Rle_dec (0 + -1 * (2 - 0)) (-1)); [|lra].
  destruct (Req_dec_T (-1) 0); [lra|reflexivity].
Qed.

(** C5.  Where the code departs from the statement.  On the same model, whose
    domain is [-1, 1], the position frozen at the minimum position at time 1
    is returned as the minimum position plus [2 pi], which lies above the
    maximum position: the circular wrap is applied to the elevation axis
    and takes the returned position out of its linear domain. *)
Theorem position_at_negative_minimum_leaves_the_domain :
  _min_position crawl_down_segment < 0
  /\ crawl_position crawl_down_segment 1 = _min_position crawl_down_segment
  /\ get_position_velocity_and_motion_state crawl_down_segment 1
     = Ok (_min_position crawl_down_segment + 2 * PI, 0, STOPPED)
  /\ _max_position crawl_down_segment
     < _min_position crawl_down_segment + 2 * PI
  /\ wrap_position (_min_position crawl_down_segment)
     <> _min_position crawl_down_segment.
Proof.
  pose proof two_PI_gt_6 as Hpi.
  split; [simpl; lra|].
  split; [unfold crawl_position; simpl; ring|].
  split.
  { rewrite crawl_down_segment_at_1. simpl. do 3 f_equal. ring. }
  split; [simpl; lra|].
  simpl. rewrite wrap_position_negative by lra. lra.
Qed.

(** ** The interpolation of the in-transit branch *)

Lemma Rabs_lt_both (x d : R) : Rabs x < d -> - d < x < d.
Proof. intros H. apply Rabs_def2 in H. lra. Qed.

(** In transit the interpolated position lies between the two ends of the
    segment, and its distance to the end position shrinks linearly. *)
Lemma transit_position_to_end (self : BaseLlcMotion) (tai : R) :
  _start_tai self <= tai < _end_tai self ->
  exists f, 0 <= f < 1
    /\ f * (_end_tai self - _start_tai self) = tai - _start_tai self
    /\ transit_position self tai
       = _start_position self * (1 - f) + _end_position self * f
    /\ transit_position self tai - _end_position self
       = (_start_position self - _end_position self) * (1 - f).
Proof.
  intros [Hs He].
  set (T := _end_tai self - _start_tai self).
  assert (HT : 0 < T) by (unfold T; lra).
  exists ((tai - _start_tai self) / T).
  assert (Hf : (tai - _start_tai self) / T * T = tai - _start_tai self)
    by (field; lra).
  repeat split.
  - apply Rmult_le_reg_r with T; [exact HT|]. rewrite Hf. lra.
  - apply Rmult_lt_reg_r with T; [exact HT|]. rewrite Hf. unfold T. lra.
  - exact Hf.
  - unfold transit_position, _get_distance. fold T. ring.
  - unfold transit_position, _get_distance. fold T. ring.
Qed.

Lemma convex_within (a b f lo hi : R) :
  0 <= f < 1 -> lo <= a < hi -> lo <= b < hi ->
  lo <= a * (1 - f) + b * f < hi.
Proof.
  intros Hf Ha Hb.
  assert (H1 : 0 <= (a - lo) * (1 - f)) by (apply Rmult_le_pos; lra).
  assert (H2 : 0 <= (b - lo) * f) by (apply Rmult_le_pos; lra).
  assert (H3 : 0 < (hi - a) * (1 - f)) by (apply Rmult_lt_0_compat; lra).
  assert (H4 : 0 <= (hi - b) * f) by (apply Rmult_le_pos; lra).
  lra.
Qed.

(** The evaluation of [full_turn_segment] before and at its end time. *)
Lemma full_turn_segment_in_transit (tai : R) :
  0 <= tai < 1 ->
  get_position_velocity_and_motion_state full_turn_segment tai
  = Ok (2 * PI * tai, 2 * PI, MOVING).
Proof.
  intros H. pose proof PI_RGT_0 as Hpi.
  rewrite evaluate_transit by (simpl; lra).
  unfold transit_position, transit_velocity, transit_state, _get_distance.
  simpl. destruct (Rlt_dec (2 * PI - 0) 0); [lra|].
  replace (0 + (2 * PI - 0) * ((tai - 0) / (1 - 0))) with (2 * PI * tai)
    by field.
  rewrite wrap_position_id; [reflexivity|].
  split.
  - apply Rmult_le_pos; lra.
  - rewrite <- (Rmult_1_r (2 * PI)) at 2. apply Rmult_lt_compat_l; lra.
Qed.

(** ** The azimuth move from 350 to 10 degrees *)

Ltac solve_abs :=
  unfold Rabs;
  repeat match goal with
  | |- context [Rcase_abs ?x] => destruct (Rcase_abs x)
  end; lra.

Module AzimuthScenario.
Import AzimuthMotion AzimuthFacts.

Lemma shortest_350_10 :
  shortest_path_distance (radians 350) (radians 10) = radians 20.
Proof.
  pose proof PI_RGT_0 as Hpi.
  unfold shortest_path_distance.
  rewrite (closer_r (radians 10 - radians 350)) by (unfold radians; solve_abs).
  rewrite closer_l by (unfold radians; solve_abs).
  unfold radians. lra.
Qed.

Lemma radians_20_pos : 0 < radians 20.
Proof. unfold radians. pose proof PI_RGT_0. lra. Qed.

Lemma radians_350_range : 0 <= radians 350 < 2 * PI.
Proof. unfold radians. pose proof PI_RGT_0. lra. Qed.

(** The segment installed by the move. *)
Lemma move_350_to_10 (max_speed crawl_velocity t0 : R) :
  0 < max_speed -> Rabs crawl_velocity <= max_speed ->
  set_target_position_and_velocity (init (radians 350) max_speed t0)
    t0 (radians 10) crawl_velocity MOVING
  = (Ok (radians 20 / max_speed),
     install_segment (init (radians 350) max_speed t0) (radians 350) t0
       (t0 + radians 20 / max_speed) (radians 10) crawl_velocity MOVING).
Proof.
  intros Hm Hv.
  rewrite (set_target_moving _ _ _ _ (radians 350) 0 STOPPED);
    try (simpl; lra).
  - rewrite shortest_350_10, (Rabs_pos_eq (radians 20))
      by (pose proof radians_20_pos; lra).
    reflexivity.
  - apply evaluate_init, radians_350_range.
Qed.

(** The evaluation while the move is in progress. *)
Lemma in_transit_350_to_10 (max_speed crawl_velocity t0 tai : R) :
  0 < max_speed ->
  t0 <= tai < t0 + radians 20 / max_speed ->
  get_position_velocity_and_motion_state
    (install_segment (init (radians 350) max_speed t0) (radians 350) t0
       (t0 + radians 20 / max_speed) (radians 10) crawl_velocity MOVING) tai
  = Ok (wrap_position (radians 350 + max_speed * (tai - t0)), max_speed, MOVING)
  /\ radians 350 <= radians 350 + max_speed * (tai - t0) < radians 370.
Proof.
  intros Hm Htai. pose proof radians_20_pos as H20. pose proof PI_RGT_0 as Hpi.
  split.
  - rewrite evaluate_moving by (simpl; try reflexivity; lra).
    unfold _get_distance. simpl. rewrite shortest_350_10.
    destruct (Rlt_dec (radians 20) 0); [lra|].
    replace (radians 350
             + radians 20 * ((tai - t0) / (t0 + radians 20 / max_speed - t0)))
      with (radians 350 + max_speed * (tai - t0)); [reflexivity|].
    unfold radians. field. lra.
  - assert (H1 : 0 <= max_speed * (tai - t0)) by (apply Rmult_le_pos; lra).
    assert (H2 : max_speed * (tai - t0) < max_speed * (radians 20 / max_speed))
      by (apply Rmult_lt_compat_l; lra).
    replace (max_speed * (radians 20 / max_speed)) with (radians 20) in H2
      by (field; lra).
    unfold radians in *. lra.
Qed.

Lemma wrap_350_to_370 (raw : R) :
  radians 350 <= raw < radians 370 ->
  radians 350 <= wrap_position raw < radians 360
  \/ 0 <= wrap_position raw < radians 10.
Proof.
  intros H. pose proof PI_RGT_0 as Hpi. unfold radians in *.
  destruct (Rlt_dec raw (2 * PI)) as [Hlt|Hge].
  - left. rewrite wrap_position_id by lra. lra.
  - right. rewrite (wrap_position_turns raw 1) by lra. lra.
Qed.

(** The three evaluations of [test_move_threefifty_ten_pos] made while
    the move is in progress, at 4 degrees per second. *)
Lemma in_transit_350_to_10_at (crawl_velocity t0 dt deg : R) :
  0 <= dt < 5 ->
  (350 + 4 * dt = deg /\ deg < 360) \/ (350 + 4 * dt = deg + 360 /\ 0 <= deg) ->
  get_position_velocity_and_motion_state
    (install_segment (init (radians 350) (radians 4) t0) (radians 350) t0
       (t0 + radians 20 / radians 4) (radians 10) crawl_velocity MOVING)
    (t0 + dt)
  = Ok (radians deg, radians 4, MOVING).
Proof.
  intros Hdt Hdeg. pose proof PI_RGT_0 as Hpi.
  assert (H4 : 0 < radians 4) by (unfold radians; lra).
  assert (H5 : radians 20 / radians 4 = 5) by (unfold radians; field; lra).
  destruct (in_transit_350_to_10 (radians 4) crawl_velocity t0 (t0 + dt) H4)
    as [-> _]; [rewrite H5; lra|].
  do 3 f_equal.
  assert (E : radians 350 + radians 4 * (t0 + dt - t0)
              = (350 + 4 * dt) * (PI / 180)) by (unfold radians; ring).
  rewrite E. unfold radians.
  destruct Hdeg as [[Hd Hlt]|[Hd Hpos]]; rewrite Hd.
  - apply wrap_position_id. split; nra.
  - rewrite (wrap_position_turns _ 1).
    + lra.
    + split; nra.
Qed.

End AzimuthScenario.

(** C7.  The azimuth move: the distance chosen is one of
    [target - current], [target - current + 2 pi] and
    [target - current - 2 pi], none of the three is shorter, and among
    those of the same length it is the largest (the positive one); an
    accepted move returns its absolute value divided by the maximum speed.
    From 350 to 10 degrees the move lasts 20 degrees divided by the maximum
    speed, every position reported while it is in progress lies in
    [350, 360) or in [0, 10) degrees with velocity [+max_speed], and at
    4 degrees per second the positions after 1, 2 and 3 seconds are 354,
    358 and 2 degrees. *)
Theorem azimuth_move_takes_shortest_path :
  (forall current target : R,
     candidate current target
       (AzimuthMotion.shortest_path_distance current target)
     /\ forall d, candidate current target d ->
          Rabs (AzimuthMotion.shortest_path_distance current target) <= Rabs d
          /\ (Rabs d = Rabs (AzimuthMotion.shortest_path_distance current target)
              -> d <= AzimuthMotion.shortest_path_distance current target))
  /\ (forall (self : BaseLlcMotion)
             (start_tai end_position crawl_velocity current v : R)
             (m : MotionState),
        Rabs crawl_velocity <= _max_speed self ->
        0 < _max_speed self ->
        _start_tai self <= start_tai ->
        AzimuthMotion.get_position_velocity_and_motion_state self start_tai
        = Ok (current, v, m) ->
        fst (AzimuthMotion.set_target_position_and_velocity self start_tai
               end_position crawl_velocity MOVING)
        = Ok (Rabs (AzimuthMotion.shortest_path_distance current end_position)
              / _max_speed self))
  /\ (forall max_speed crawl_velocity t0 : R,
        0 < max_speed -> Rabs crawl_velocity <= max_speed ->
        exists moving,
          AzimuthMotion.set_target_position_and_velocity
            (AzimuthMotion.init (radians 350) max_speed t0)
            t0 (radians 10) crawl_velocity MOVING
          = (Ok (radians 20 / max_speed), moving)
          /\ forall tai, t0 <= tai < t0 + radians 20 / max_speed ->
               exists p,
                 AzimuthMotion.get_position_velocity_and_motion_state moving tai
                 = Ok (p, max_speed, MOVING)
                 /\ (radians 350 <= p < radians 360 \/ 0 <= p < radians 10))
  /\ (forall crawl_velocity t0 : R,
        Rabs crawl_velocity <= radians 4 ->
        exists moving,
          AzimuthMotion.set_target_position_and_velocity
            (AzimuthMotion.init (radians 350) (radians 4) t0)
            t0 (radians 10) crawl_velocity MOVING
          = (Ok 5, moving)
          /\ AzimuthMotion.get_position_velocity_and_motion_state moving (t0 + 1)
             = Ok (radians 354, radians 4, MOVING)
          /\ AzimuthMotion.get_position_velocity_and_motion_state moving (t0 + 2)
             = Ok (radians 358, radians 4, MOVING)
          /\ AzimuthMotion.get_position_velocity_and_motion_state moving (t0 + 3)
             = Ok (radians 2, radians 4, MOVING)).
Proof.
  split; [|split; [|split]].
  - intros current target. split.
    + apply AzimuthFacts.shortest_path_distance_candidate.
    + intros d Hd. split.
      * apply AzimuthFacts.shortest_path_distance_minimal, Hd.
      * apply AzimuthFacts.shortest_path_distance_tie, Hd.
  - intros self start_tai end_position crawl_velocity current v m Hv Hm Ht He.
    rewrite (AzimuthFacts.set_target_moving _ _ _ _ current v m);
      try assumption.
    reflexivity.
  - intros max_speed crawl_velocity t0 Hm Hv.
    eexists. split; [apply AzimuthScenario.move_350_to_10; assumption|].
    intros tai Htai.
    destruct (AzimuthScenario.in_transit_350_to_10 max_speed crawl_velocity
                t0 tai Hm Htai) as [Heval Hraw].
    eexists. split; [exact Heval|].
    apply AzimuthScenario.wrap_350_to_370, Hraw.
  - intros crawl_velocity t0 Hv. pose proof PI_RGT_0 as Hpi.
    assert (H4 : 0 < radians 4) by (unfold radians; lra).
    assert (H5 : radians 20 / radians 4 = 5) by (unfold radians; field; lra).
    eexists. split.
    + rewrite <- H5. apply AzimuthScenario.move_350_to_10; assumption.
    + repeat split;
        apply AzimuthScenario.in_transit_350_to_10_at; lra.
Qed.

(** The move of [test_move_threefifty_ten_pos]: crawl velocity 0.1 degrees
    per second, issued at 10001. *)
Lemma azimuth_move_takes_shortest_path_witness :
  Rabs (radians (1 / 10)) <= radians 4
  /\ exists moving,
       AzimuthMotion.set_target_position_and_velocity
         (AzimuthMotion.init (radians 350) (radians 4) 10001)
         10001 (radians 10) (radians (1 / 10)) MOVING
       = (Ok 5, moving)
       /\ AzimuthMotion.get_position_velocity_and_motion_state moving (10001 + 1)
          = Ok (radians 354, radians 4, MOVING)
       /\ AzimuthMotion.get_position_velocity_and_motion_state moving (10001 + 2)
          = Ok (radians 358, radians 4, MOVING)
       /\ AzimuthMotion.get_position_velocity_and_motion_state moving (10001 + 3)
          = Ok (radians 2, radians 4, MOVING).
Proof.
  assert (H : Rabs (radians (1 / 10)) <= radians 4).
  { unfold radians. pose proof PI_RGT_0. rewrite Rabs_pos_eq; lra. }
  split; [exact H|].
  exact (proj2 (proj2 (proj2 azimuth_move_takes_shortest_path))
           (radians (1 / 10)) 10001 H).
Defined.

(** * Further properties of the elevation model *)

(** ** The evaluation *)

(** The crawl branch as a whole: the crawl position passed through the two
    tests, at rest when a bound is met or the crawl velocity is zero. *)
Lemma evaluate_crawl (self : BaseLlcMotion) (tai : R) :
  tai >= _end_tai self ->
  ~ holds_at_end (_commanded_motion_state self) ->
  get_position_velocity_and_motion_state self tai
  = Ok (wrap_position
          (clamp (_min_position self) (_max_position self)
                 (crawl_position self tai)),
        (if Req_dec_T (_crawl_velocity self) 0 then 0
         else if Rge_dec (crawl_position self tai) (_max_position self) then 0
         else if Rle_dec (crawl_position self tai) (_min_position self) then 0
         else _crawl_velocity self),
        (if Req_dec_T (_crawl_velocity self) 0 then STOPPED
         else if Rge_dec (crawl_position self tai) (_max_position self)
         then STOPPED
         else if Rle_dec (crawl_position self tai) (_min_position self)
         then STOPPED
         else CRAWLING)).
Proof.
  intros He Hin.
  unfold get_position_velocity_and_motion_state, evaluate_branches, clamp.
  destruct (Rge_dec tai (_end_tai self)); [|contradiction].
  destruct (in_dec _ _ _); [contradiction|].
  fold (crawl_position self tai).
  destruct (Rge_dec (crawl_position self tai) (_max_position self));
    [|destruct (Rle_dec (crawl_position self tai) (_min_position self))];
    destruct (Req_dec_T (_crawl_velocity self) 0); reflexivity.
Qed.

Lemma clamp_within (lo hi x : R) : lo <= hi -> lo <= clamp lo hi x <= hi.
Proof.
  intros H. unfold clamp.
  destruct (Rge_dec x hi); [lra|]. destruct (Rle_dec x lo); lra.
Qed.

Lemma clamp_monotone (lo hi x y : R) :
  lo <= hi -> x <= y -> clamp lo hi x <= clamp lo hi y.
Proof.
  intros H Hxy. unfold clamp.
  destruct (Rge_dec x hi); destruct (Rge_dec y hi);
    destruct (Rle_dec x lo); destruct (Rle_dec y lo); lra.
Qed.

Lemma holds_at_end_dec (state : MotionState) :
  {holds_at_end state} + {~ holds_at_end state}.
Proof. apply in_dec, MotionState_eq_dec. Defined.

(** X1.  Whatever the segment and the time, a returned state is STOPPED,
    CRAWLING or MOVING.  STOPPED comes with velocity 0; CRAWLING comes with
    the crawl velocity, which is then not zero, at or after the end time
    and with the crawl position strictly between the bounds; MOVING comes
    with plus or minus the maximum speed, between the start time and the
    end time. *)
Theorem returned_state_and_velocity_agree
  (self : BaseLlcMotion) (tai p v : R) (m : MotionState) :
  get_position_velocity_and_motion_state self tai = Ok (p, v, m) ->
  (m = STOPPED /\ v = 0)
  \/ (m = CRAWLING /\ v = _crawl_velocity self /\ v <> 0
      /\ tai >= _end_tai self
      /\ _min_position self < crawl_position self tai < _max_position self)
  \/ (m = MOVING /\ (v = _max_speed self \/ v = - _max_speed self)
      /\ _start_tai self <= tai < _end_tai self).
Proof.
  destruct (Rge_dec tai (_end_tai self)) as [He|He].
  - destruct (holds_at_end_dec (_commanded_motion_state self)) as [Hin|Hin].
    + rewrite evaluate_hold by assumption.
      intros H. injection H as _ <- <-. left. split; reflexivity.
    + rewrite evaluate_crawl by assumption.
      destruct (Req_dec_T (_crawl_velocity self) 0) as [Hz|Hz];
        [intros H; injection H as _ <- <-; left; split; reflexivity|].
      destruct (Rge_dec (crawl_position self tai) (_max_position self));
        [intros H; injection H as _ <- <-; left; split; reflexivity|].
      destruct (Rle_dec (crawl_position self tai) (_min_position self));
        [intros H; injection H as _ <- <-; left; split; reflexivity|].
      intros H. injection H as _ <- <-. right. left.
      repeat split; try assumption; lra.
  - destruct (Rlt_dec tai (_start_tai self)) as [Hs|Hs].
    + rewrite evaluate_out_of_order by lra. discriminate.
    + rewrite evaluate_transit by lra.
      unfold transit_velocity, transit_state.
      destruct (MotionState_eq_dec (_commanded_motion_state self) STOPPING).
      * intros H. injection H as _ <- <-. left. split; reflexivity.
      * intros H. injection H as _ <- <-. right. right.
        split; [reflexivity|]. split; [|lra].
        destruct (Rlt_dec (_get_distance self) 0); [right|left]; reflexivity.
Qed.

Lemma returned_state_and_velocity_agree_witness :
  get_position_velocity_and_motion_state crawl_down_segment 2
  = Ok (2 * PI - 1, 0, STOPPED)
  /\ ((STOPPED = STOPPED /\ 0 = 0)
      \/ (STOPPED = CRAWLING /\ 0 = _crawl_velocity crawl_down_segment
          /\ 0 <> 0 /\ 2 >= _end_tai crawl_down_segment
          /\ _min_position crawl_down_segment
             < crawl_position crawl_down_segment 2
             < _max_position crawl_down_segment)
      \/ (STOPPED = MOVING
          /\ (0 = _max_speed crawl_down_segment
              \/ 0 = - _max_speed crawl_down_segment)
          /\ _start_tai crawl_down_segment <= 2 < _end_tai crawl_down_segment)).
Proof.
  split; [exact crawl_down_segment_at_2|].
  exact (returned_state_and_velocity_agree crawl_down_segment 2
           (2 * PI - 1) 0 STOPPED crawl_down_segment_at_2).
Defined.

(** X2.  The evaluation depends on times only through their differences:
    an object whose start and end times are [d] seconds later answers a
    query [d] seconds later as the original answers the original query,
    errors included. *)
Theorem evaluation_is_invariant_under_time_shift
  (self : BaseLlcMotion) (d tai : R) :
  get_position_velocity_and_motion_state (shift_time self d) (tai + d)
  = get_position_velocity_and_motion_state self tai.
Proof.
  destruct (Rge_dec tai (_end_tai self)) as [He|He].
  - destruct (holds_at_end_dec (_commanded_motion_state self)) as [Hin|Hin].
    + rewrite (evaluate_hold self) by assumption.
      rewrite evaluate_hold; [reflexivity|simpl; lra|exact Hin].
    + rewrite (evaluate_crawl self) by assumption.
      rewrite evaluate_crawl; [|simpl; lra|exact Hin].
      replace (crawl_position (shift_time self d) (tai + d))
        with (crawl_position self tai)
        by (unfold crawl_position; simpl; ring).
      reflexivity.
  - destruct (Rlt_dec tai (_start_tai self)) as [Hs|Hs].
    + rewrite (evaluate_out_of_order self) by lra.
      apply evaluate_out_of_order; simpl; lra.
    + rewrite (evaluate_transit self) by lra.
      rewrite evaluate_transit by (simpl; lra).
      replace (transit_position (shift_time self d) (tai + d))
        with (transit_position self tai).
      * reflexivity.
      * unfold transit_position, _get_distance. simpl.
        replace (tai + d - (_start_tai self + d)) with (tai - _start_tai self)
          by ring.
        replace (_end_tai self + d - (_start_tai self + d))
          with (_end_tai self - _start_tai self) by ring.
        reflexivity.
Qed.

(** X3.  The bounds are consulted by the crawl branch only: while the
    commanded state is STOPPING, STOPPED or MOVING, the evaluation returns
    the same outcome whatever the minimum and maximum positions of the
    object, so that a move to a target outside the bounds travels to that
    target and rests there. *)
Theorem move_evaluation_ignores_bounds
  (self : BaseLlcMotion) (min_position max_position tai : R) :
  holds_at_end (_commanded_motion_state self) ->
  get_position_velocity_and_motion_state
    (with_bounds self min_position max_position) tai
  = get_position_velocity_and_motion_state self tai
  /\ (tai >= _end_tai self ->
      get_position_velocity_and_motion_state self tai
      = Ok (wrap_position (_end_position self), 0, STOPPED)).
Proof.
  intros Hin. split.
  - destruct (Rge_dec tai (_end_tai self)) as [He|He].
    + rewrite (evaluate_hold self) by assumption.
      rewrite evaluate_hold; [reflexivity|exact He|exact Hin].
    + destruct (Rlt_dec tai (_start_tai self)) as [Hs|Hs].
      * rewrite (evaluate_out_of_order self) by lra.
        apply evaluate_out_of_order; simpl; lra.
      * rewrite (evaluate_transit self) by lra.
        rewrite evaluate_transit by (simpl; lra). reflexivity.
  - intros He. apply evaluate_hold; assumption.
Qed.

Lemma move_evaluation_ignores_bounds_witness :
  holds_at_end (_commanded_motion_state moving_segment)
  /\ get_position_velocity_and_motion_state
       (with_bounds moving_segment 0 (1 / 2)) 2
     = get_position_velocity_and_motion_state moving_segment 2.
Proof.
  assert (H : holds_at_end (_commanded_motion_state moving_segment))
    by (unfold holds_at_end; simpl; tauto).
  split; [exact H|].
  exact (proj1 (move_evaluation_ignores_bounds moving_segment 0 (1 / 2) 2 H)).
Defined.

(** ** Stopping *)

(** X4.  [stop] is rejected exactly when its time is before both the end
    time and the start time of the installed segment; it then raises the
    out-of-order-time error and changes nothing.  Otherwise it is accepted
    and installs a segment at rest at a position in [0, 2 pi).  In both
    cases the bounds, the maximum speed and the end time are kept. *)
Theorem stop_outcome (self : BaseLlcMotion) (t : R) :
  (t < _end_tai self /\ t < _start_tai self ->
   stop self t = (Raise (ValueError TaiBeforeStart), self))
  /\ (~ (t < _end_tai self /\ t < _start_tai self) ->
      exists p, 0 <= p < 2 * PI
                /\ stop self t = (Ok tt, stopped_at self t p))
  /\ (_min_position (snd (stop self t)) = _min_position self
      /\ _max_position (snd (stop self t)) = _max_position self
      /\ _max_speed (snd (stop self t)) = _max_speed self
      /\ _end_tai (snd (stop self t)) = _end_tai self).
Proof.
  split; [|split].
  - intros [He Hs]. unfold stop.
    rewrite evaluate_out_of_order by assumption. reflexivity.
  - intros Hok.
    destruct (get_position_velocity_and_motion_state self t)
      as [[[p v] m]|e] eqn:Heval.
    + exists p. split.
      * exact (evaluate_position_range _ _ _ _ _ Heval).
      * exact (stop_ok _ _ _ _ _ Heval).
    + exfalso. apply Hok.
      destruct (Rge_dec t (_end_tai self)) as [He|He].
      * pose proof (evaluate_after_end_ok self t He) as H.
        rewrite Heval in H. contradiction.
      * destruct (Rlt_dec t (_start_tai self)) as [Hs|Hs]; [lra|].
        rewrite evaluate_transit in Heval by lra. discriminate.
  - unfold stop.
    destruct (get_position_velocity_and_motion_state self t)
      as [[[p v] m]|e]; simpl; repeat split; reflexivity.
Qed.

Lemma stop_outcome_witness :
  (-1 < _end_tai moving_segment /\ -1 < _start_tai moving_segment)
  /\ stop moving_segment (-1)
     = (Raise (ValueError TaiBeforeStart), moving_segment).
Proof.
  assert (H : -1 < _end_tai moving_segment /\ -1 < _start_tai moving_segment)
    by (simpl; lra).
  split; [exact H|].
  exact (proj1 (stop_outcome moving_segment (-1)) H).
Defined.

(** The evaluation of a stopped object. *)
Lemma stopped_at_evaluation (self : BaseLlcMotion) (t p tai : R) :
  0 <= p < 2 * PI ->
  ~ (tai < _end_tai self /\ tai < t) ->
  get_position_velocity_and_motion_state (stopped_at self t p) tai
  = Ok (p, 0, STOPPED).
Proof.
  intros Hrange Hok.
  destruct (Rge_dec tai (_end_tai self)) as [He|He].
  - rewrite evaluate_hold;
      [|exact He|unfold holds_at_end; simpl; tauto].
    simpl. rewrite wrap_position_id by exact Hrange. reflexivity.
  - rewrite evaluate_transit by (simpl; lra).
    unfold transit_position, transit_velocity, transit_state, _get_distance.
    simpl.
    replace (p + (p - p) * ((tai - t) / (_end_tai self - t))) with p by ring.
    rewrite wrap_position_id by exact Hrange. reflexivity.
Qed.

(** X5.  After an accepted [stop], every query that is answered at all,
    before or after the time of the stop, returns the position at which the
    model was stopped, with velocity 0 and state STOPPED. *)
Theorem every_answer_after_stop_is_the_stop_position
  (self self' : BaseLlcMotion) (t : R) :
  stop self t = (Ok tt, self') ->
  exists p,
    _end_position self' = p /\
    forall tai q v m,
      get_position_velocity_and_motion_state self' tai = Ok (q, v, m) ->
      q = p /\ v = 0 /\ m = STOPPED.
Proof.
  intros Hstop.
  destruct (stop_inv _ _ _ Hstop) as (p & v0 & m0 & Heval & ->).
  exists p. split; [reflexivity|].
  pose proof (evaluate_position_range _ _ _ _ _ Heval) as Hrange.
  intros tai q v m.
  destruct (Rlt_dec tai (_end_tai self)) as [He|He];
    [destruct (Rlt_dec tai t) as [Hs|Hs]|].
  - rewrite evaluate_out_of_order by (simpl; lra). discriminate.
  - rewrite stopped_at_evaluation by (try exact Hrange; lra).
    intros H. injection H as <- <- <-. repeat split.
  - rewrite stopped_at_evaluation by (try exact Hrange; lra).
    intros H. injection H as <- <- <-. repeat split.
Qed.

Lemma every_answer_after_stop_is_the_stop_position_witness :
  stop moving_segment 5 = (Ok tt, stopped_at moving_segment 5 1)
  /\ exists p,
       _end_position (stopped_at moving_segment 5 1) = p /\
       forall tai q v m,
         get_position_velocity_and_motion_state
           (stopped_at moving_segment 5 1) tai = Ok (q, v, m) ->
         q = p /\ v = 0 /\ m = STOPPED.
Proof.
  split; [exact stop_moving_segment_late|].
  exact (every_answer_after_stop_is_the_stop_position moving_segment
           (stopped_at moving_segment 5 1) 5 stop_moving_segment_late).
Defined.

(** X6.  Stopping a stopped model again, at the same time or later, is
    accepted and changes the start time only: the position, the end time
    and every other attribute stay as the first stop left them. *)
Theorem stop_twice (self self1 : BaseLlcMotion) (t1 t2 : R) :
  stop self t1 = (Ok tt, self1) ->
  t2 >= t1 ->
  exists p,
    self1 = stopped_at self t1 p
    /\ stop self1 t2 = (Ok tt, stopped_at self t2 p).
Proof.
  intros Hstop Hlater.
  destruct (stop_inv _ _ _ Hstop) as (p & v0 & m0 & Heval & ->).
  pose proof (evaluate_position_range _ _ _ _ _ Heval) as Hrange.
  exists p. split; [reflexivity|].
  rewrite (stop_ok _ t2 p 0 STOPPED); [reflexivity|].
  apply stopped_at_evaluation; [exact Hrange|lra].
Qed.

Lemma stop_twice_witness :
  stop moving_segment 5 = (Ok tt, stopped_at moving_segment 5 1)
  /\ 7 >= 5
  /\ exists p,
       stopped_at moving_segment 5 1 = stopped_at moving_segment 5 p
       /\ stop (stopped_at moving_segment 5 1) 7
          = (Ok tt, stopped_at moving_segment 7 p).
Proof.
  assert (H : 7 >= 5) by lra.
  split; [exact stop_moving_segment_late|]. split; [exact H|].
  exact (stop_twice moving_segment (stopped_at moving_segment 5 1) 5 7
           stop_moving_segment_late H).
Defined.

(** ** The final normalisation *)

(** X7.  The normalisation applied to every returned position yields the
    one value in [0, 2 pi) that differs from the computed position by a
    whole number of turns; positions a whole number of turns apart are
    returned as the same value. *)
Theorem wrap_position_is_the_representative_in_one_turn (position : R) :
  0 <= wrap_position position < 2 * PI
  /\ (exists k : Z, wrap_position position = position - 2 * PI * IZR k)
  /\ (forall (q : R) (k : Z),
        0 <= q < 2 * PI -> q = position - 2 * PI * IZR k ->
        q = wrap_position position)
  /\ (forall k : Z,
        wrap_position (position + 2 * PI * IZR k) = wrap_position position).
Proof.
  pose proof PI_RGT_0 as Hpi.
  assert (Hex : exists k : Z,
             wrap_position position = position - 2 * PI * IZR k).
  { exists (Int_part (degrees position / 360)).
    unfold wrap_position, angle_wrap_nonnegative, rad, degrees. field. lra. }
  split; [apply wrap_position_range|]. split; [exact Hex|]. split.
  - intros q k Hq ->. symmetry. apply wrap_position_turns. exact Hq.
  - intros k. destruct Hex as (k0 & Hk0).
    pose proof (wrap_position_range position) as Hr.
    rewrite (wrap_position_turns _ (k0 + k)).
    + rewrite Hk0, plus_IZR. ring.
    + rewrite plus_IZR.
      replace (position + 2 * PI * IZR k - 2 * PI * (IZR k0 + IZR k))
        with (position - 2 * PI * IZR k0) by ring.
      rewrite <- Hk0. exact Hr.
Qed.

Lemma wrap_position_is_the_representative_in_one_turn_witness :
  0 <= 1 < 2 * PI
  /\ 1 = (1 + 2 * PI) - 2 * PI * IZR 1
  /\ 1 = wrap_position (1 + 2 * PI).
Proof.
  assert (H1 : 0 <= 1 < 2 * PI) by (pose proof two_PI_gt_6; lra).
  assert (H2 : 1 = (1 + 2 * PI) - 2 * PI * IZR 1) by ring.
  split; [exact H1|]. split; [exact H2|].
  exact (proj1 (proj2 (proj2
           (wrap_position_is_the_representative_in_one_turn (1 + 2 * PI))))
           1 1%Z H1 H2).
Defined.

(** ** In transit *)

(** X8.  Between the start time and the end time the position computed
    before the normalisation lies between the start position and the end
    position, and is the start position at the start time; when both
    positions lie in [0, 2 pi) this is the position returned.  Unless the
    segment is a stop, the velocity returned is the maximum speed when the
    end position is not below the start position, and its opposite
    otherwise. *)
Theorem transit_position_lies_between_ends
  (self : BaseLlcMotion) (tai p v : R) (m : MotionState) :
  _start_tai self <= tai < _end_tai self ->
  get_position_velocity_and_motion_state self tai = Ok (p, v, m) ->
  exists raw,
    p = wrap_position raw
    /\ Rmin (_start_position self) (_end_position self) <= raw
       <= Rmax (_start_position self) (_end_position self)
    /\ (tai = _start_tai self -> raw = _start_position self)
    /\ (0 <= _start_position self < 2 * PI ->
        0 <= _end_position self < 2 * PI -> p = raw)
    /\ (_commanded_motion_state self <> STOPPING ->
        (_start_position self <= _end_position self -> v = _max_speed self)
        /\ (_end_position self < _start_position self ->
            v = - _max_speed self)).
Proof.
  intros Htai. rewrite evaluate_transit by exact Htai.
  intros H. injection H as <- <- <-.
  destruct (transit_position_to_end self tai Htai)
    as (f & Hf & HfT & Hconv & _).
  exists (transit_position self tai).
  split; [reflexivity|]. split; [|split; [|split]].
  - rewrite Hconv. unfold Rmin, Rmax.
    destruct (Rle_dec (_start_position self) (_end_position self)); nra.
  - intros ->. rewrite Hconv.
    assert (f = 0) by nra. subst f. ring.
  - intros Hsp Hep. apply wrap_position_id.
    rewrite Hconv. apply convex_within; assumption.
  - intros Hc. unfold transit_velocity, _get_distance.
    destruct (MotionState_eq_dec (_commanded_motion_state self) STOPPING);
      [contradiction|].
    destruct (Rlt_dec (_end_position self - _start_position self) 0);
      split; intros; try reflexivity; lra.
Qed.

Lemma transit_position_lies_between_ends_witness :
  _start_tai full_turn_segment <= 1 / 2 < _end_tai full_turn_segment
  /\ exists raw,
       2 * PI * (1 / 2) = wrap_position raw
       /\ Rmin (_start_position full_turn_segment)
               (_end_position full_turn_segment) <= raw
          <= Rmax (_start_position full_turn_segment)
                  (_end_position full_turn_segment).
Proof.
  assert (H : _start_tai full_turn_segment <= 1 / 2
              < _end_tai full_turn_segment) by (simpl; lra).
  assert (He : get_position_velocity_and_motion_state full_turn_segment (1 / 2)
               = Ok (2 * PI * (1 / 2), 2 * PI, MOVING))
    by (apply full_turn_segment_in_transit; lra).
  split; [exact H|].
  destruct (transit_position_lies_between_ends full_turn_segment (1 / 2)
              _ _ _ H He) as (raw & Hp & Hb & _).
  exists raw. split; [exact Hp|exact Hb].
Defined.

(** X9.  For a segment whose duration is the length of the travel divided
    by a positive maximum speed and which is not a stop, the position
    computed in transit is the start position plus the returned velocity
    times the time elapsed since the start time: the model moves at the
    velocity it reports. *)
Theorem transit_position_advances_at_returned_velocity
  (self : BaseLlcMotion) (tai : R) :
  0 < _max_speed self ->
  _end_tai self
  = _start_tai self
    + Rabs (_end_position self - _start_position self) / _max_speed self ->
  _commanded_motion_state self <> STOPPING ->
  _start_tai self <= tai < _end_tai self ->
  exists v,
    (v = _max_speed self \/ v = - _max_speed self)
    /\ get_position_velocity_and_motion_state self tai
       = Ok (wrap_position (_start_position self + v * (tai - _start_tai self)),
             v, MOVING).
Proof.
  intros Hm Hend Hc Htai.
  rewrite evaluate_transit by exact Htai.
  unfold transit_position, transit_velocity, transit_state, _get_distance.
  destruct (MotionState_eq_dec (_commanded_motion_state self) STOPPING);
    [contradiction|].
  set (D := _end_position self - _start_position self) in *.
  assert (HT : _end_tai self - _start_tai self = Rabs D / _max_speed self)
    by lra.
  rewrite HT.
  assert (HD : 0 < Rabs D).
  { assert (0 < Rabs D / _max_speed self) by lra.
    destruct (Rabs_pos D) as [Hpos|Hz]; [exact Hpos|].
    rewrite <- Hz in H. unfold Rdiv in H. rewrite Rmult_0_l in H. lra. }
  destruct (Rlt_dec D 0) as [Hneg|Hpos].
  - exists (- _max_speed self). split; [right; reflexivity|].
    replace (D * ((tai - _start_tai self) / (Rabs D / _max_speed self)))
      with (- _max_speed self * (tai - _start_tai self)); [reflexivity|].
    rewrite Rabs_left by exact Hneg. field. lra.
  - exists (_max_speed self). split; [left; reflexivity|].
    replace (D * ((tai - _start_tai self) / (Rabs D / _max_speed self)))
      with (_max_speed self * (tai - _start_tai self)); [reflexivity|].
    rewrite Rabs_pos_eq in HD |- * by lra. field. lra.
Qed.

Lemma transit_position_advances_at_returned_velocity_witness :
  exists v,
    (v = _max_speed moving_segment \/ v = - _max_speed moving_segment)
    /\ get_position_velocity_and_motion_state moving_segment (1 / 2)
       = Ok (wrap_position
               (_start_position moving_segment
                + v * (1 / 2 - _start_tai moving_segment)),
             v, MOVING).
Proof.
  apply transit_position_advances_at_returned_velocity.
  - simpl. lra.
  - simpl. rewrite Rabs_pos_eq by lra. field.
  - simpl. discriminate.
  - simpl. lra.
Defined.

(** ** Crawling *)

Lemma crawl_position_monotone (self : BaseLlcMotion) (tai1 tai2 : R) :
  tai1 <= tai2 ->
  (0 <= _crawl_velocity self ->
   crawl_position self tai1 <= crawl_position self tai2)
  /\ (_crawl_velocity self <= 0 ->
      crawl_position self tai2 <= crawl_position self tai1).
Proof.
  intros H. unfold crawl_position. split; intros Hv; nra.
Qed.

(** X10.  On a model whose bounds satisfy
    [0 <= min_position <= max_position < 2 pi], a segment that crawls (its
    commanded state is none of STOPPING, STOPPED, MOVING) returns at every
    time from the end time on a position between the bounds, and of two
    such times the later one returns a position that is not behind the
    earlier one in the direction of the crawl velocity. *)
Theorem crawl_stays_within_bounds_and_never_turns_back
  (self : BaseLlcMotion) (tai1 tai2 p1 v1 p2 v2 : R) (m1 m2 : MotionState) :
  ~ holds_at_end (_commanded_motion_state self) ->
  0 <= _min_position self ->
  _min_position self <= _max_position self ->
  _max_position self < 2 * PI ->
  _end_tai self <= tai1 <= tai2 ->
  get_position_velocity_and_motion_state self tai1 = Ok (p1, v1, m1) ->
  get_position_velocity_and_motion_state self tai2 = Ok (p2, v2, m2) ->
  _min_position self <= p1 <= _max_position self
  /\ _min_position self <= p2 <= _max_position self
  /\ (0 <= _crawl_velocity self -> p1 <= p2)
  /\ (_crawl_velocity self <= 0 -> p2 <= p1).
Proof.
  intros Hin Hlo Hb Hhi Ht.
  rewrite !evaluate_crawl by (try exact Hin; lra).
  intros H1 H2. injection H1 as <- _ _. injection H2 as <- _ _.
  pose proof (clamp_within (_min_position self) (_max_position self)
                (crawl_position self tai1) Hb) as Hc1.
  pose proof (clamp_within (_min_position self) (_max_position self)
                (crawl_position self tai2) Hb) as Hc2.
  rewrite !wrap_position_id by lra.
  destruct (crawl_position_monotone self tai1 tai2) as [Hup Hdown]; [lra|].
  repeat split; try lra.
  - intros Hv. apply clamp_monotone; [exact Hb|apply Hup, Hv].
  - intros Hv. apply clamp_monotone; [exact Hb|apply Hdown, Hv].
Qed.

Lemma slow_crawl_segment_inside (tai : R) :
  0 <= tai < 3 ->
  get_position_velocity_and_motion_state slow_crawl_segment tai
  = Ok (1 / 4 + 1 / 4 * tai, 1 / 4, CRAWLING).
Proof.
  intros H.
  rewrite evaluate_crawl_inside.
  - simpl. destruct (Req_dec_T (1 / 4) 0); [lra|].
    unfold crawl_position. simpl.
    replace (1 / 4 + 1 / 4 * (tai - 0)) with (1 / 4 + 1 / 4 * tai) by ring.
    rewrite wrap_position_id; [reflexivity|].
    pose proof two_PI_gt_6. lra.
  - simpl. lra.
  - simpl. apply crawling_does_not_hold.
  - unfold crawl_position. simpl. lra.
Qed.

Lemma crawl_stays_within_bounds_and_never_turns_back_witness :
  _min_position slow_crawl_segment <= 1 / 4 + 1 / 4 * 1
  <= _max_position slow_crawl_segment
  /\ _min_position slow_crawl_segment <= 1 / 4 + 1 / 4 * 2
     <= _max_position slow_crawl_segment
  /\ (0 <= _crawl_velocity slow_crawl_segment ->
      1 / 4 + 1 / 4 * 1 <= 1 / 4 + 1 / 4 * 2)
  /\ (_crawl_velocity slow_crawl_segment <= 0 ->
      1 / 4 + 1 / 4 * 2 <= 1 / 4 + 1 / 4 * 1).
Proof.
  apply (crawl_stays_within_bounds_and_never_turns_back slow_crawl_segment
           1 2 _ (1 / 4) _ (1 / 4) CRAWLING CRAWLING).
  - simpl. apply crawling_does_not_hold.
  - simpl. lra.
  - simpl. lra.
  - simpl. pose proof two_PI_gt_6. lra.
  - simpl. lra.
  - apply slow_crawl_segment_inside. lra.
  - apply slow_crawl_segment_inside. lra.
Defined.

(** X11.  A crawl that starts strictly between the bounds with a positive
    crawl velocity is reported CRAWLING, at the crawl velocity, until
    [(max_position - start_position) / crawl_velocity] seconds after the
    end time, and STOPPED with velocity 0 from then on.  The position
    returned is the normalisation into [0, 2 pi) of the start position plus
    the crawl velocity times the time elapsed since the end time, then the
    normalisation of the maximum position.  With a negative crawl velocity
    the same holds toward the minimum position.  On a model whose bounds
    lie in [0, 2 pi) the normalisation changes none of these positions. *)
Theorem crawl_stops_when_the_bound_is_reached
  (self : BaseLlcMotion) (tai : R) :
  ~ holds_at_end (_commanded_motion_state self) ->
  _min_position self < _start_position self < _max_position self ->
  tai >= _end_tai self ->
  (0 < _crawl_velocity self ->
   let arrival :=
     _end_tai self
     + (_max_position self - _start_position self) / _crawl_velocity self in
   (tai < arrival ->
    get_position_velocity_and_motion_state self tai
    = Ok (wrap_position (crawl_position self tai),
          _crawl_velocity self, CRAWLING))
   /\ (tai >= arrival ->
       get_position_velocity_and_motion_state self tai
       = Ok (wrap_position (_max_position self), 0, STOPPED)))
  /\ (_crawl_velocity self < 0 ->
      let arrival :=
        _end_tai self
        + (_min_position self - _start_position self) / _crawl_velocity self in
      (tai < arrival ->
       get_position_velocity_and_motion_state self tai
       = Ok (wrap_position (crawl_position self tai),
             _crawl_velocity self, CRAWLING))
      /\ (tai >= arrival ->
          get_position_velocity_and_motion_state self tai
          = Ok (wrap_position (_min_position self), 0, STOPPED)))
  /\ (0 <= _min_position self -> _max_position self < 2 * PI ->
      wrap_position (_max_position self) = _max_position self
      /\ wrap_position (_min_position self) = _min_position self
      /\ (_min_position self < crawl_position self tai < _max_position self ->
          wrap_position (crawl_position self tai) = crawl_position self tai)).
Proof.
  intros Hin Hsp He.
  split; [|split;
    [|intros Hlo Hhi; repeat split; intros; apply wrap_position_id; lra]];
    intros Hv arrival.
  - assert (Harr : _crawl_velocity self * (arrival - _end_tai self)
                   = _max_position self - _start_position self)
      by (unfold arrival; field; lra).
    split; intros Ht.
    + assert (_crawl_velocity self * (tai - _end_tai self)
              < _crawl_velocity self * (arrival - _end_tai self))
        by (apply Rmult_lt_compat_l; lra).
      assert (0 <= _crawl_velocity self * (tai - _end_tai self))
        by (apply Rmult_le_pos; lra).
      rewrite evaluate_crawl_inside;
        [|exact He|exact Hin|unfold crawl_position; lra].
      destruct (Req_dec_T (_crawl_velocity self) 0); [lra|reflexivity].
    + assert (_crawl_velocity self * (arrival - _end_tai self)
              <= _crawl_velocity self * (tai - _end_tai self))
        by (apply Rmult_le_compat_l; lra).
      apply evaluate_crawl_max; [exact He|exact Hin|].
      unfold crawl_position. lra.
  - assert (Harr : _crawl_velocity self * (arrival - _end_tai self)
                   = _min_position self - _start_position self)
      by (unfold arrival; field; lra).
    split; intros Ht.
    + assert (- _crawl_velocity self * (tai - _end_tai self)
              < - _crawl_velocity self * (arrival - _end_tai self))
        by (apply Rmult_lt_compat_l; lra).
      assert (0 <= - _crawl_velocity self * (tai - _end_tai self))
        by (apply Rmult_le_pos; lra).
      rewrite evaluate_crawl_inside;
        [|exact He|exact Hin|unfold crawl_position; lra].
      destruct (Req_dec_T (_crawl_velocity self) 0); [lra|reflexivity].
    + assert (- _crawl_velocity self * (arrival - _end_tai self)
              <= - _crawl_velocity self * (tai - _end_tai self))
        by (apply Rmult_le_compat_l; lra).
      apply evaluate_crawl_min; [exact He|exact Hin| |];
        unfold crawl_position; lra.
Qed.

Lemma crawl_stops_when_the_bound_is_reached_witness :
  3 >= _end_tai slow_crawl_segment
     + (_max_position slow_crawl_segment - _start_position slow_crawl_segment)
       / _crawl_velocity slow_crawl_segment
  /\ get_position_velocity_and_motion_state slow_crawl_segment 3
     = Ok (wrap_position (_max_position slow_crawl_segment), 0, STOPPED).
Proof.
  assert (H0 : ~ holds_at_end (_commanded_motion_state slow_crawl_segment))
    by (simpl; apply crawling_does_not_hold).
  assert (H1 : _min_position slow_crawl_segment
               < _start_position slow_crawl_segment
               < _max_position slow_crawl_segment) by (simpl; lra).
  assert (H2 : 3 >= _end_tai slow_crawl_segment) by (simpl; lra).
  assert (H3 : 0 < _crawl_velocity slow_crawl_segment) by (simpl; lra).
  assert (H4 : 3 >= _end_tai slow_crawl_segment
                    + (_max_position slow_crawl_segment
                       - _start_position slow_crawl_segment)
                      / _crawl_velocity slow_crawl_segment)
    by (simpl; lra).
  split; [exact H4|].
  exact (proj2 (proj1 (crawl_stops_when_the_bound_is_reached
                         slow_crawl_segment 3 H0 H1 H2) H3) H4).
Defined.

(** X12.  A crawl with crawl velocity zero is at rest: at every time from
    the end time on it returns velocity 0 and state STOPPED, never
    CRAWLING, at the normalisation into [0, 2 pi) of the start position
    passed through the two bound tests; on a model whose bounds satisfy
    [0 <= min_position <= max_position < 2 pi] that position is the start
    position passed through the two bound tests itself. *)
Theorem crawl_with_zero_velocity_is_stopped (self : BaseLlcMotion) (tai : R) :
  ~ holds_at_end (_commanded_motion_state self) ->
  _crawl_velocity self = 0 ->
  tai >= _end_tai self ->
  get_position_velocity_and_motion_state self tai
  = Ok (wrap_position
          (clamp (_min_position self) (_max_position self)
                 (_start_position self)),
        0, STOPPED)
  /\ (0 <= _min_position self ->
      _min_position self <= _max_position self ->
      _max_position self < 2 * PI ->
      get_position_velocity_and_motion_state self tai
      = Ok (clamp (_min_position self) (_max_position self)
                  (_start_position self),
            0, STOPPED)).
Proof.
  intros Hin Hz He.
  assert (Heval : get_position_velocity_and_motion_state self tai
                  = Ok (wrap_position
                          (clamp (_min_position self) (_max_position self)
                                 (_start_position self)),
                        0, STOPPED)).
  { rewrite evaluate_crawl by assumption.
    replace (crawl_position self tai) with (_start_position self)
      by (unfold crawl_position; rewrite Hz; ring).
    destruct (Req_dec_T (_crawl_velocity self) 0);
      [reflexivity|contradiction]. }
  split; [exact Heval|].
  intros Hlo Hb Hhi. rewrite Heval.
  pose proof (clamp_within (_min_position self) (_max_position self)
                (_start_position self) Hb).
  rewrite wrap_position_id by lra. reflexivity.
Qed.

Lemma crawl_with_zero_velocity_is_stopped_witness :
  get_position_velocity_and_motion_state
    (install_segment crawl_up_segment (1 / 2) 0 0 (1 / 2) 0 CRAWLING) 1
  = Ok (clamp 0 1 (1 / 2), 0, STOPPED).
Proof.
  apply (proj2 (crawl_with_zero_velocity_is_stopped
                  (install_segment crawl_up_segment (1 / 2) 0 0 (1 / 2) 0
                     CRAWLING) 1
                  ltac:(simpl; apply crawling_does_not_hold)
                  eq_refl
                  ltac:(simpl; lra))).
  - simpl. lra.
  - simpl. lra.
  - simpl. pose proof two_PI_gt_6. lra.
Defined.

(** * Further properties of the azimuth model

    The azimuth model is the one written from the specification and from
    tests/test_azimuth_motion.py; the statements below generalise what the
    tests of that file expect. *)

(** Travelling a distance [d] in [|d| / max_speed] seconds is travelling at
    the maximum speed in the direction of [d]. *)
Lemma travel_at_max_speed (d max_speed t0 tai : R) :
  0 < max_speed -> d <> 0 ->
  d * ((tai - t0) / (t0 + Rabs d / max_speed - t0))
  = (if Rlt_dec d 0 then - max_speed else max_speed) * (tai - t0).
Proof.
  intros Hm Hd.
  destruct (Rlt_dec d 0).
  - rewrite Rabs_left by assumption. field. lra.
  - rewrite Rabs_pos_eq by lra. field. lra.
Qed.

Module AzimuthCommands.
Import AzimuthMotion AzimuthFacts.

Lemma shortest_path_distance_same (position : R) :
  shortest_path_distance position position = 0.
Proof.
  pose proof PI_RGT_0 as Hpi. unfold shortest_path_distance.
  replace (position - position) with 0 by ring.
  rewrite (closer_l 0 (0 + 2 * PI)) by solve_abs.
  apply closer_l. solve_abs.
Qed.

(** The chosen distance for positions within one turn. *)
Lemma shortest_path_distance_cases (current target : R) :
  0 <= current < 2 * PI -> 0 <= target < 2 * PI ->
  let d := shortest_path_distance current target in
  (Rabs (target - current) < PI -> d = target - current)
  /\ (target - current <= - PI -> d = target - current + 2 * PI)
  /\ (PI < target - current -> d = target - current - 2 * PI)
  /\ (target - current = PI -> d = PI).
Proof.
  intros Hc Ht d. unfold d, shortest_path_distance.
  pose proof PI_RGT_0 as Hpi.
  set (d0 := target - current).
  assert (Hd0 : - (2 * PI) < d0 < 2 * PI) by (unfold d0; lra).
  repeat split; intros H.
  - apply Rabs_lt_both in H.
    rewrite (closer_l d0) by solve_abs. apply closer_l. solve_abs.
  - destruct (Req_dec_T d0 (- PI)) as [E|E].
    + unfold closer at 2.
      destruct (Rlt_dec (Rabs d0) (Rabs (d0 + 2 * PI)));
        [exfalso; revert r; solve_abs|].
      destruct (Rlt_dec (Rabs (d0 + 2 * PI)) (Rabs d0));
        [exfalso; revert r; solve_abs|].
      replace (Rmax d0 (d0 + 2 * PI)) with (d0 + 2 * PI)
        by (unfold Rmax; destruct (Rle_dec d0 (d0 + 2 * PI)); lra).
      apply closer_l. solve_abs.
    + rewrite (closer_r d0) by solve_abs. apply closer_l. solve_abs.
  - rewrite (closer_l d0) by solve_abs. apply closer_r. solve_abs.
  - unfold closer at 2.
    destruct (Rlt_dec (Rabs d0) (Rabs (d0 + 2 * PI)));
      [|exfalso; revert n; solve_abs].
    unfold closer.
    destruct (Rlt_dec (Rabs d0) (Rabs (d0 - 2 * PI)));
      [exfalso; revert r0; solve_abs|].
    destruct (Rlt_dec (Rabs (d0 - 2 * PI)) (Rabs d0));
      [exfalso; revert r0; solve_abs|].
    unfold Rmax. destruct (Rle_dec d0 (d0 - 2 * PI)); lra.
Qed.

(** The branches of the azimuth evaluation after the end time. *)
Lemma evaluate_arrived (self : BaseLlcMotion) (tai : R) :
  tai >= _end_tai self ->
  (_commanded_motion_state self = MOVING ->
   get_position_velocity_and_motion_state self tai
   = Ok (wrap_position
           (_end_position self + _crawl_velocity self * (tai - _end_tai self)),
         _crawl_velocity self,
         if Req_dec_T (_crawl_velocity self) 0 then STOPPED else CRAWLING))
  /\ (_commanded_motion_state self = CRAWLING ->
      get_position_velocity_and_motion_state self tai
      = Ok (wrap_position
              (_start_position self
               + _crawl_velocity self * (tai - _end_tai self)),
            _crawl_velocity self,
            if Req_dec_T (_crawl_velocity self) 0 then STOPPED else CRAWLING))
  /\ (_commanded_motion_state self = STOPPING ->
      get_position_velocity_and_motion_state self tai
      = Ok (wrap_position (_end_position self), 0, STOPPED))
  /\ (_commanded_motion_state self = PARKING ->
      get_position_velocity_and_motion_state self tai
      = Ok (wrap_position (_end_position self), 0, PARKED)).
Proof.
  intros He.
  unfold get_position_velocity_and_motion_state, evaluate_branches.
  destruct (Rge_dec tai (_end_tai self)); [|contradiction].
  repeat split; intros ->; simpl;
    destruct (Req_dec_T (_crawl_velocity self) 0) as [E|E];
    try rewrite E; reflexivity.
Qed.

(** The in-transit branch of the azimuth evaluation. *)
Lemma evaluate_in_transit (self : BaseLlcMotion) (tai : R) :
  _start_tai self <= tai < _end_tai self ->
  let position :=
    wrap_position
      (_start_position self
       + _get_distance self
         * ((tai - _start_tai self) / (_end_tai self - _start_tai self))) in
  let velocity :=
    if Rlt_dec (_get_distance self) 0
    then - _max_speed self else _max_speed self in
  (_commanded_motion_state self = STOPPING ->
   get_position_velocity_and_motion_state self tai = Ok (position, 0, STOPPED))
  /\ (_commanded_motion_state self = PARKING ->
      get_position_velocity_and_motion_state self tai
      = Ok (position, velocity, PARKING))
  /\ (_commanded_motion_state self = MOVING ->
      get_position_velocity_and_motion_state self tai
      = Ok (position, velocity, MOVING)).
Proof.
  intros [Hs He] position velocity.
  unfold get_position_velocity_and_motion_state, evaluate_branches, py_div.
  destruct (Rge_dec tai (_end_tai self)); [lra|].
  destruct (Rlt_dec tai (_start_tai self)); [lra|].
  destruct (Req_dec_T (_end_tai self - _start_tai self) 0); [lra|].
  repeat split; intros ->; reflexivity.
Qed.

Lemma azimuth_evaluate_position_range (self : BaseLlcMotion) (tai p v : R)
  (m : MotionState) :
  get_position_velocity_and_motion_state self tai = Ok (p, v, m) ->
  0 <= p < 2 * PI.
Proof.
  unfold get_position_velocity_and_motion_state.
  destruct (evaluate_branches self tai) as [[[raw v'] m']|e]; simpl;
    intros H; [|discriminate].
  injection H as <- _ _. apply wrap_position_range.
Qed.

End AzimuthCommands.

(** X13.  For positions within one turn the distance chosen by the azimuth
    model never exceeds half a turn, and travelling it from the current
    position leads to the target. *)
Theorem shortest_path_is_at_most_half_a_turn_and_reaches_the_target
  (current target : R) :
  0 <= current < 2 * PI -> 0 <= target < 2 * PI ->
  Rabs (AzimuthMotion.shortest_path_distance current target) <= PI
  /\ wrap_position (current + AzimuthMotion.shortest_path_distance current target)
     = target.
Proof.
  intros Hc Ht. pose proof PI_RGT_0 as Hpi.
  destruct (AzimuthCommands.shortest_path_distance_cases current target Hc Ht)
    as (H1 & H2 & H3 & H4).
  destruct (Rle_dec (target - current) (- PI)) as [Hlow|Hlow].
  - rewrite (H2 Hlow). split; [solve_abs|].
    rewrite (wrap_position_turns _ 1); lra.
  - destruct (Rlt_dec PI (target - current)) as [Hhigh|Hhigh].
    + rewrite (H3 Hhigh). split; [solve_abs|].
      rewrite (wrap_position_turns _ (-1)); lra.
    + destruct (Req_dec_T (target - current) PI) as [E|E].
      * rewrite (H4 E). split; [solve_abs|].
        rewrite wrap_position_id; lra.
      * assert (Hin : Rabs (target - current) < PI) by solve_abs.
        rewrite (H1 Hin). split; [solve_abs|].
        rewrite wrap_position_id; lra.
Qed.

Lemma shortest_path_is_at_most_half_a_turn_and_reaches_the_target_witness :
  Rabs (AzimuthMotion.shortest_path_distance (radians 350) (radians 10)) <= PI
  /\ wrap_position
       (radians 350
        + AzimuthMotion.shortest_path_distance (radians 350) (radians 10))
     = radians 10.
Proof.
  apply shortest_path_is_at_most_half_a_turn_and_reaches_the_target;
    unfold radians; pose proof PI_RGT_0; lra.
Defined.

(** X14.  An accepted azimuth move from the position [current] to [target]
    lasts the chosen distance divided by the maximum speed.  While it lasts
    the model reports MOVING at plus or minus the maximum speed, in the
    direction of the chosen distance, at the current position advanced at
    that velocity; from its end on it crawls away from the target at the
    crawl velocity and reports CRAWLING, or STOPPED when the crawl velocity
    is zero. *)
Theorem azimuth_move_then_crawl
  (self : BaseLlcMotion) (t0 target crawl_velocity current v0 : R)
  (m0 : MotionState) :
  Rabs crawl_velocity <= _max_speed self ->
  0 < _max_speed self ->
  _start_tai self <= t0 ->
  AzimuthMotion.get_position_velocity_and_motion_state self t0
  = Ok (current, v0, m0) ->
  let d := AzimuthMotion.shortest_path_distance current target in
  let duration := Rabs d / _max_speed self in
  let v := if Rlt_dec d 0 then - _max_speed self else _max_speed self in
  exists self',
    AzimuthMotion.set_target_position_and_velocity self t0 target
      crawl_velocity MOVING = (Ok duration, self')
    /\ (forall tai, t0 <= tai < t0 + duration ->
          AzimuthMotion.get_position_velocity_and_motion_state self' tai
          = Ok (wrap_position (current + v * (tai - t0)), v, MOVING))
    /\ (forall tai, tai >= t0 + duration ->
          AzimuthMotion.get_position_velocity_and_motion_state self' tai
          = Ok (wrap_position
                  (target + crawl_velocity * (tai - (t0 + duration))),
                crawl_velocity,
                if Req_dec_T crawl_velocity 0 then STOPPED else CRAWLING)).
Proof.
  intros Hv Hm Ht Heval d duration v.
  eexists. split; [|split].
  - apply (AzimuthFacts.set_target_moving _ _ _ _ current v0 m0); assumption.
  - intros tai Htai. fold d. fold duration.
    destruct (Req_dec_T d 0) as [Hz|Hz].
    + exfalso. unfold duration in Htai. rewrite Hz, Rabs_R0 in Htai.
      unfold Rdiv in Htai. rewrite Rmult_0_l in Htai. lra.
    + destruct (AzimuthCommands.evaluate_in_transit
                  (install_segment self current t0 (t0 + duration) target
                     crawl_velocity MOVING) tai) as (_ & _ & Hmove);
        [simpl; lra|].
      rewrite (Hmove eq_refl). unfold AzimuthMotion._get_distance. simpl.
      fold d. unfold duration.
      rewrite (travel_at_max_speed d _ t0 tai Hm Hz).
      reflexivity.
  - intros tai Htai. fold d. fold duration.
    destruct (AzimuthCommands.evaluate_arrived
                (install_segment self current t0 (t0 + duration) target
                   crawl_velocity MOVING) tai) as (Hmove & _);
      [simpl; lra|].
    rewrite (Hmove eq_refl). reflexivity.
Qed.

(** The move of [test_move_ten_zero_neg]: from 10 degrees to 0 at 4 degrees
    per second, crawl velocity -0.1 degrees per second. *)
Lemma azimuth_move_then_crawl_witness :
  exists self',
    AzimuthMotion.set_target_position_and_velocity
      (AzimuthMotion.init (radians 10) (radians 4) 10001) 10001 0
      (radians (- (1 / 10))) MOVING
    = (Ok (Rabs (AzimuthMotion.shortest_path_distance (radians 10) 0)
           / radians 4), self').
Proof.
  pose proof PI_RGT_0 as Hpi.
  destruct (azimuth_move_then_crawl
              (AzimuthMotion.init (radians 10) (radians 4) 10001) 10001 0
              (radians (- (1 / 10))) (radians 10) 0 STOPPED)
    as (self' & H & _).
  - simpl. unfold radians. solve_abs.
  - simpl. unfold radians. lra.
  - simpl. lra.
  - apply AzimuthFacts.evaluate_init. unfold radians. lra.
  - exists self'. exact H.
Defined.

(** X15.  An accepted azimuth crawl command has duration zero whatever its
    target: from the command time on the model is at the current position
    advanced at the crawl velocity, normalised into [0, 2 pi), and reports
    CRAWLING, or STOPPED when the crawl velocity is zero.  The target plays
    no part and there is no bound at which the crawl stops. *)
Theorem azimuth_crawl_ignores_the_target
  (self : BaseLlcMotion) (t0 target crawl_velocity current v0 : R)
  (m0 : MotionState) :
  Rabs crawl_velocity <= _max_speed self ->
  _start_tai self <= t0 ->
  AzimuthMotion.get_position_velocity_and_motion_state self t0
  = Ok (current, v0, m0) ->
  exists self',
    AzimuthMotion.set_target_position_and_velocity self t0 target
      crawl_velocity CRAWLING = (Ok 0, self')
    /\ forall tai, tai >= t0 ->
         AzimuthMotion.get_position_velocity_and_motion_state self' tai
         = Ok (wrap_position (current + crawl_velocity * (tai - t0)),
               crawl_velocity,
               if Req_dec_T crawl_velocity 0 then STOPPED else CRAWLING).
Proof.
  intros Hv Ht Heval.
  exists (install_segment self current t0 (t0 + 0) target crawl_velocity
            CRAWLING).
  split.
  - unfold AzimuthMotion.set_target_position_and_velocity,
      set_target_position_and_velocity.
    destruct (Rgt_dec (Rabs crawl_velocity) (_max_speed self)); [lra|].
    destruct (Rlt_dec t0 (_start_tai self)); [lra|].
    rewrite Heval.
    destruct (MotionState_eq_dec CRAWLING CRAWLING); [reflexivity|congruence].
  - intros tai Htai.
    destruct (AzimuthCommands.evaluate_arrived
                (install_segment self current t0 (t0 + 0) target
                   crawl_velocity CRAWLING) tai) as (_ & Hcrawl & _);
      [simpl; lra|].
    rewrite (Hcrawl eq_refl). simpl.
    replace (tai - (t0 + 0)) with (tai - t0) by ring. reflexivity.
Qed.

(** The crawl of [test_crawl_pos]: at 350 degrees, target 10 degrees, crawl
    velocity 1 degree per second. *)
Lemma azimuth_crawl_ignores_the_target_witness :
  exists self',
    AzimuthMotion.set_target_position_and_velocity
      (AzimuthMotion.init (radians 350) (radians 4) 10001) 10001 (radians 10)
      (radians 1) CRAWLING
    = (Ok 0, self').
Proof.
  pose proof PI_RGT_0 as Hpi.
  destruct (azimuth_crawl_ignores_the_target
              (AzimuthMotion.init (radians 350) (radians 4) 10001) 10001
              (radians 10) (radians 1) (radians 350) 0 STOPPED)
    as (self' & H & _).
  - simpl. unfold radians. solve_abs.
  - simpl. lra.
  - apply AzimuthFacts.evaluate_init. unfold radians. lra.
  - exists self'. exact H.
Defined.

(** The objects the two tests have installed before they stop. *)
Lemma azimuth_test_stop_from_moving_installs :
  AzimuthMotion.set_target_position_and_velocity
    (AzimuthMotion.init 0 (radians 4) 10001) 10001 (radians 10) 0 MOVING
  = (Ok (radians 10 / radians 4),
     install_segment (AzimuthMotion.init 0 (radians 4) 10001) 0 10001
       (10001 + radians 10 / radians 4) (radians 10) 0 MOVING).
Proof.
  pose proof PI_RGT_0 as Hpi.
  assert (Hd : AzimuthMotion.shortest_path_distance 0 (radians 10) = radians 10).
  { destruct (AzimuthCommands.shortest_path_distance_cases 0 (radians 10))
      as (Hnear & _); [lra|unfold radians; lra|].
    rewrite Hnear by (unfold radians; solve_abs). ring. }
  rewrite (AzimuthFacts.set_target_moving _ _ _ _ 0 0 STOPPED).
  - rewrite Hd, Rabs_pos_eq by (unfold radians; lra). reflexivity.
  - simpl. rewrite Rabs_R0. unfold radians. lra.
  - simpl. unfold radians. lra.
  - simpl. lra.
  - apply AzimuthFacts.evaluate_init. lra.
Qed.

Lemma azimuth_test_stop_from_crawling_installs :
  AzimuthMotion.set_target_position_and_velocity
    (AzimuthMotion.init (radians 10) (radians 4) 10001) 10001 (radians 10)
    (radians 1) CRAWLING
  = (Ok 0,
     install_segment (AzimuthMotion.init (radians 10) (radians 4) 10001)
       (radians 10) 10001 (10001 + 0) (radians 10) (radians 1) CRAWLING).
Proof.
  pose proof PI_RGT_0 as Hpi.
  unfold AzimuthMotion.set_target_position_and_velocity,
    set_target_position_and_velocity.
  destruct (Rgt_dec (Rabs (radians 1))
              (_max_speed (AzimuthMotion.init (radians 10) (radians 4) 10001)))
    as [Hv|Hv]; [exfalso; revert Hv; simpl; unfold radians; solve_abs|].
  destruct (Rlt_dec 10001
              (_start_tai (AzimuthMotion.init (radians 10) (radians 4) 10001)));
    [simpl in *; lra|].
  rewrite AzimuthFacts.evaluate_init by (unfold radians; lra).
  reflexivity.
Qed.

(** The azimuth model of [test_stop_from_moving] two seconds into its move
    from 0 to 10 degrees at 4 degrees per second, and the model of
    [test_stop_from_crawling] four seconds into its crawl from 10 degrees
    at 1 degree per second. *)
Lemma azimuth_moving_at_8_degrees :
  AzimuthMotion.get_position_velocity_and_motion_state
    (install_segment (AzimuthMotion.init 0 (radians 4) 10001) 0 10001
       (10001 + radians 10 / radians 4) (radians 10) 0 MOVING) (10001 + 2)
  = Ok (radians 8, radians 4, MOVING).
Proof.
  pose proof PI_RGT_0 as Hpi.
  assert (H4 : 0 < radians 4) by (unfold radians; lra).
  assert (H10 : radians 10 / radians 4 = 5 / 2) by (unfold radians; field; lra).
  assert (Hd : AzimuthMotion.shortest_path_distance 0 (radians 10) = radians 10).
  { destruct (AzimuthCommands.shortest_path_distance_cases 0 (radians 10))
      as (Hnear & _); [lra|unfold radians; lra|].
    rewrite Hnear by (unfold radians; solve_abs). ring. }
  destruct (AzimuthCommands.evaluate_in_transit
              (install_segment (AzimuthMotion.init 0 (radians 4) 10001) 0 10001
                 (10001 + radians 10 / radians 4) (radians 10) 0 MOVING)
              (10001 + 2)) as (_ & _ & Hmove);
    [simpl; rewrite H10; lra|].
  rewrite (Hmove eq_refl). unfold AzimuthMotion._get_distance. simpl.
  rewrite Hd. destruct (Rlt_dec (radians 10) 0); [unfold radians in *; lra|].
  replace (0 + radians 10
               * ((10001 + 2 - 10001) / (10001 + radians 10 / radians 4 - 10001)))
    with (radians 8) by (unfold radians; field; lra).
  rewrite wrap_position_id by (unfold radians; lra). reflexivity.
Qed.

Lemma azimuth_crawling_at_14_degrees :
  AzimuthMotion.get_position_velocity_and_motion_state
    (install_segment (AzimuthMotion.init (radians 10) (radians 4) 10001)
       (radians 10) 10001 (10001 + 0) (radians 10) (radians 1) CRAWLING)
    (10001 + 4)
  = Ok (radians 14, radians 1, CRAWLING).
Proof.
  pose proof PI_RGT_0 as Hpi.
  destruct (AzimuthCommands.evaluate_arrived
              (install_segment (AzimuthMotion.init (radians 10) (radians 4) 10001)
                 (radians 10) 10001 (10001 + 0) (radians 10) (radians 1)
                 CRAWLING) (10001 + 4)) as (_ & Hcrawl & _);
    [simpl; lra|].
  rewrite (Hcrawl eq_refl). simpl.
  destruct (Req_dec_T (radians 1) 0); [unfold radians in *; lra|].
  replace (radians 10 + radians 1 * (10001 + 4 - (10001 + 0)))
    with (radians 14) by (unfold radians; field).
  rewrite wrap_position_id by (unfold radians; lra). reflexivity.
Qed.

(** X16.  After an accepted azimuth [stop] at time [t], every evaluation at
    a time [tai >= t] returns the position evaluated at [t], velocity 0 and
    state STOPPED, whether the model was moving or crawling. *)
Theorem azimuth_stop_freezes_state (self self' : BaseLlcMotion) (t : R) :
  AzimuthMotion.stop self t = (Ok tt, self') ->
  exists p v m,
    AzimuthMotion.get_position_velocity_and_motion_state self t = Ok (p, v, m)
    /\ forall tai, tai >= t ->
         AzimuthMotion.get_position_velocity_and_motion_state self' tai
         = Ok (p, 0, STOPPED).
Proof.
  unfold AzimuthMotion.stop.
  destruct (AzimuthMotion.get_position_velocity_and_motion_state self t)
    as [[[p v] m]|e] eqn:Heval; intros H; [|discriminate].
  injection H as <-.
  exists p, v, m. split; [reflexivity|].
  pose proof (AzimuthCommands.azimuth_evaluate_position_range _ _ _ _ _ Heval)
    as Hrange.
  intros tai Htai.
  destruct (AzimuthCommands.evaluate_arrived
              (install_segment self p t t p 0 STOPPING) tai)
    as (_ & _ & Hstop & _); [exact Htai|].
  rewrite (Hstop eq_refl). simpl.
  rewrite wrap_position_id by exact Hrange. reflexivity.
Qed.

(** The stops of [test_stop_from_moving] (at 8 degrees, while moving) and
    of [test_stop_from_crawling] (at 14 degrees, while crawling). *)
Lemma azimuth_stop_freezes_state_witness :
  (exists p v m,
     AzimuthMotion.get_position_velocity_and_motion_state
       (install_segment (AzimuthMotion.init 0 (radians 4) 10001) 0 10001
          (10001 + radians 10 / radians 4) (radians 10) 0 MOVING) (10001 + 2)
     = Ok (p, v, m)
     /\ p = radians 8 /\ m = MOVING
     /\ forall tai, tai >= 10001 + 2 ->
          AzimuthMotion.get_position_velocity_and_motion_state
            (install_segment
               (install_segment (AzimuthMotion.init 0 (radians 4) 10001) 0 10001
                  (10001 + radians 10 / radians 4) (radians 10) 0 MOVING)
               (radians 8) (10001 + 2) (10001 + 2) (radians 8) 0 STOPPING) tai
          = Ok (p, 0, STOPPED))
  /\ (exists p v m,
        AzimuthMotion.get_position_velocity_and_motion_state
          (install_segment (AzimuthMotion.init (radians 10) (radians 4) 10001)
             (radians 10) 10001 (10001 + 0) (radians 10) (radians 1) CRAWLING)
          (10001 + 4)
        = Ok (p, v, m)
        /\ p = radians 14 /\ m = CRAWLING
        /\ forall tai, tai >= 10001 + 4 ->
             AzimuthMotion.get_position_velocity_and_motion_state
               (install_segment
                  (install_segment
                     (AzimuthMotion.init (radians 10) (radians 4) 10001)
                     (radians 10) 10001 (10001 + 0) (radians 10) (radians 1)
                     CRAWLING)
                  (radians 14) (10001 + 4) (10001 + 4) (radians 14) 0 STOPPING)
               tai
             = Ok (p, 0, STOPPED)).
Proof.
  split.
  - destruct (azimuth_stop_freezes_state
                (install_segment (AzimuthMotion.init 0 (radians 4) 10001) 0
                   10001 (10001 + radians 10 / radians 4) (radians 10) 0 MOVING)
                (install_segment
                   (install_segment (AzimuthMotion.init 0 (radians 4) 10001) 0
                      10001 (10001 + radians 10 / radians 4) (radians 10) 0
                      MOVING)
                   (radians 8) (10001 + 2) (10001 + 2) (radians 8) 0 STOPPING)
                (10001 + 2)) as (p & v & m & Heval & Hfrozen).
    + unfold AzimuthMotion.stop. rewrite azimuth_moving_at_8_degrees.
      reflexivity.
    + exists p, v, m. split; [exact Heval|].
      rewrite azimuth_moving_at_8_degrees in Heval.
      injection Heval as <- _ <-.
      split; [reflexivity|]. split; [reflexivity|exact Hfrozen].
  - destruct (azimuth_stop_freezes_state
                (install_segment
                   (AzimuthMotion.init (radians 10) (radians 4) 10001)
                   (radians 10) 10001 (10001 + 0) (radians 10) (radians 1)
                   CRAWLING)
                (install_segment
                   (install_segment
                      (AzimuthMotion.init (radians 10) (radians 4) 10001)
                      (radians 10) 10001 (10001 + 0) (radians 10) (radians 1)
                      CRAWLING)
                   (radians 14) (10001 + 4) (10001 + 4) (radians 14) 0
                   STOPPING)
                (10001 + 4)) as (p & v & m & Heval & Hfrozen).
    + unfold AzimuthMotion.stop. rewrite azimuth_crawling_at_14_degrees.
      reflexivity.
    + exists p, v, m. split; [exact Heval|].
      rewrite azimuth_crawling_at_14_degrees in Heval.
      injection Heval as <- _ <-.
      split; [reflexivity|]. split; [reflexivity|exact Hfrozen].
Defined.

(** X17.  An accepted azimuth [park] issued at position [p] travels the
    chosen distance from [p] to 0 at the maximum speed, reporting PARKING
    at plus or minus the maximum speed, and from its end on reports
    position 0, velocity 0 and state PARKED.  From a position below half a
    turn it travels downward and lasts [p / max_speed]. *)
Theorem azimuth_park_reaches_zero
  (self : BaseLlcMotion) (t p v0 : R) (m0 : MotionState) :
  0 < _max_speed self ->
  AzimuthMotion.get_position_velocity_and_motion_state self t = Ok (p, v0, m0) ->
  let d := AzimuthMotion.shortest_path_distance p 0 in
  let duration := Rabs d / _max_speed self in
  let v := if Rlt_dec d 0 then - _max_speed self else _max_speed self in
  exists self',
    AzimuthMotion.park self t = (Ok tt, self')
    /\ (forall tai, t <= tai < t + duration ->
          AzimuthMotion.get_position_velocity_and_motion_state self' tai
          = Ok (wrap_position (p + v * (tai - t)), v, PARKING))
    /\ (forall tai, tai >= t + duration ->
          AzimuthMotion.get_position_velocity_and_motion_state self' tai
          = Ok (0, 0, PARKED))
    /\ (0 < p < PI -> d = - p /\ duration = p / _max_speed self
                      /\ v = - _max_speed self).
Proof.
  intros Hm Heval d duration v.
  pose proof PI_RGT_0 as Hpi.
  pose proof (AzimuthCommands.azimuth_evaluate_position_range _ _ _ _ _ Heval)
    as Hrange.
  exists (install_segment self p t (t + duration) 0 0 PARKING).
  split; [|split; [|split]].
  - unfold AzimuthMotion.park, py_div. rewrite Heval.
    destruct (Req_dec_T (_max_speed self) 0); [lra|]. reflexivity.
  - intros tai Htai.
    destruct (Req_dec_T d 0) as [Hz|Hz].
    + exfalso. unfold duration in Htai. rewrite Hz, Rabs_R0 in Htai.
      unfold Rdiv in Htai. rewrite Rmult_0_l in Htai. lra.
    + destruct (AzimuthCommands.evaluate_in_transit
                  (install_segment self p t (t + duration) 0 0 PARKING) tai)
        as (_ & Hpark & _); [simpl; lra|].
      rewrite (Hpark eq_refl). unfold AzimuthMotion._get_distance. simpl.
      fold d. unfold duration.
      rewrite (travel_at_max_speed d _ t tai Hm Hz).
      reflexivity.
  - intros tai Htai.
    destruct (AzimuthCommands.evaluate_arrived
                (install_segment self p t (t + duration) 0 0 PARKING) tai)
      as (_ & _ & _ & Hpark); [simpl; lra|].
    rewrite (Hpark eq_refl). simpl.
    rewrite wrap_position_id by lra. reflexivity.
  - intros Hp.
    destruct (AzimuthCommands.shortest_path_distance_cases p 0)
      as (Hnear & _); [lra|lra|].
    assert (Hd : d = - p).
    { unfold d. rewrite Hnear by solve_abs. ring. }
    split; [exact Hd|]. split.
    + unfold duration. rewrite Hd, Rabs_left by lra. f_equal. ring.
    + unfold v. rewrite Hd. destruct (Rlt_dec (- p) 0); [reflexivity|lra].
Qed.

(** The park of [test_park_from_crawling] taken at rest: from 14 degrees at
    4 degrees per second. *)
Lemma azimuth_park_reaches_zero_witness :
  exists self',
    AzimuthMotion.park (AzimuthMotion.init (radians 14) (radians 4) 10001) 10005
    = (Ok tt, self').
Proof.
  pose proof PI_RGT_0 as Hpi.
  destruct (azimuth_park_reaches_zero
              (AzimuthMotion.init (radians 14) (radians 4) 10001) 10005
              (radians 14) 0 STOPPED) as (self' & H & _).
  - simpl. unfold radians. lra.
  - unfold AzimuthMotion.get_position_velocity_and_motion_state,
      AzimuthMotion.evaluate_branches. simpl.
    destruct (Rge_dec 10005 10001); [|lra]. simpl.
    rewrite wrap_position_id; [reflexivity|]. unfold radians. lra.
  - exists self'. exact H.
Defined.

(** * The two commands of the elevation model together *)

(** X18.  An accepted elevation move from the position [current] to
    [target] lasts [|target - current| / max_speed].  While it lasts the
    model reports MOVING at plus or minus the maximum speed, at the current
    position advanced at that velocity; from its end on it rests at the
    target with velocity 0 and state STOPPED, whatever crawl velocity was
    requested with the move. *)
Theorem elevation_move_then_rest
  (self : BaseLlcMotion) (t0 target crawl_velocity current v0 : R)
  (m0 : MotionState) :
  Rabs crawl_velocity <= _max_speed self ->
  0 < _max_speed self ->
  _start_tai self <= t0 ->
  get_position_velocity_and_motion_state self t0 = Ok (current, v0, m0) ->
  let duration := Rabs (target - current) / _max_speed self in
  let v :=
    if Rlt_dec (target - current) 0 then - _max_speed self
    else _max_speed self in
  exists self',
    elevation_set_target_position_and_velocity self t0 target crawl_velocity
      MOVING = (Ok duration, self')
    /\ (forall tai, t0 <= tai < t0 + duration ->
          get_position_velocity_and_motion_state self' tai
          = Ok (wrap_position (current + v * (tai - t0)), v, MOVING))
    /\ (forall tai, tai >= t0 + duration ->
          get_position_velocity_and_motion_state self' tai
          = Ok (wrap_position target, 0, STOPPED)).
Proof.
  intros Hv Hm Ht Heval duration v.
  exists (install_segment self current t0 (t0 + duration) target
            crawl_velocity MOVING).
  split; [|split].
  - apply (set_target_accepted get_position_velocity_and_motion_state
             _get_distance self t0 target crawl_velocity current v0 m0 MOVING);
      try assumption.
    discriminate.
  - intros tai Htai.
    destruct (Req_dec_T (target - current) 0) as [Hz|Hz].
    + exfalso. unfold duration in Htai. rewrite Hz, Rabs_R0 in Htai.
      unfold Rdiv in Htai. rewrite Rmult_0_l in Htai. lra.
    + rewrite evaluate_transit by (simpl; lra).
      unfold transit_position, transit_velocity, transit_state, _get_distance.
      simpl. unfold duration.
      rewrite (travel_at_max_speed _ _ t0 tai Hm Hz).
      reflexivity.
  - intros tai Htai.
    rewrite evaluate_hold;
      [reflexivity|simpl; lra|unfold holds_at_end; simpl; tauto].
Qed.

Lemma elevation_move_then_rest_witness :
  exists self',
    elevation_set_target_position_and_velocity moving_segment 2 (1 / 2)
      (1 / 10) MOVING
    = (Ok (Rabs (1 / 2 - 1) / _max_speed moving_segment), self').
Proof.
  destruct (elevation_move_then_rest moving_segment 2 (1 / 2) (1 / 10)
              1 0 STOPPED) as (self' & H & _).
  - simpl. rewrite Rabs_pos_eq; lra.
  - simpl. lra.
  - simpl. lra.
  - rewrite evaluate_hold.
    + simpl. rewrite wrap_position_id; [reflexivity|].
      pose proof two_PI_gt_6. lra.
    + simpl. lra.
    + unfold holds_at_end. simpl. tauto.
  - exists self'. exact H.
Defined.

(** * Continuity at the end of a move *)

(** ** The normalisation and distances *)

Lemma wrap_position_decompose (position : R) :
  exists k : Z, wrap_position position = position - 2 * PI * IZR k.
Proof.
  pose proof PI_RGT_0 as Hpi.
  exists (Int_part (degrees position / 360)).
  unfold wrap_position, angle_wrap_nonnegative, rad, degrees. field. lra.
Qed.

Lemma wrap_position_whole_turns (position : R) (k : Z) :
  wrap_position (position + 2 * PI * IZR k) = wrap_position position.
Proof.
  destruct (wrap_position_decompose position) as (k0 & Hk0).
  pose proof (wrap_position_range position) as Hr.
  rewrite (wrap_position_turns _ (k0 + k)).
  - rewrite Hk0, plus_IZR. ring.
  - rewrite plus_IZR.
    replace (position + 2 * PI * IZR k - 2 * PI * (IZR k0 + IZR k))
      with (position - 2 * PI * IZR k0) by ring.
    rewrite <- Hk0. exact Hr.
Qed.

Lemma angular_distance_same (p : R) : angular_distance p p = 0.
Proof.
  unfold angular_distance. replace (p - p) with 0 by ring. rewrite Rabs_R0.
  pose proof PI_RGT_0. unfold Rmin. destruct (Rle_dec 0 (2 * PI - 0)); lra.
Qed.

Lemma small_integer (n : Z) : -2 < IZR n < 2 -> (n = -1 \/ n = 0 \/ n = 1)%Z.
Proof.
  intros [Hlo Hhi].
  apply lt_IZR in Hlo. apply lt_IZR in Hhi. lia.
Qed.

(** The normalisation does not increase distances between angles. *)
Lemma angular_distance_wrap (x y : R) :
  angular_distance (wrap_position x) (wrap_position y) <= Rabs (x - y).
Proof.
  pose proof PI_RGT_0 as Hpi.
  destruct (wrap_position_decompose x) as (k1 & Hx).
  destruct (wrap_position_decompose y) as (k2 & Hy).
  pose proof (wrap_position_range x) as Hrx.
  pose proof (wrap_position_range y) as Hry.
  set (a := wrap_position x) in *. set (b := wrap_position y) in *.
  unfold angular_distance.
  destruct (Rle_dec PI (Rabs (x - y))) as [Hfar|Hnear].
  - destruct (Rle_dec (Rabs (a - b)) PI).
    + eapply Rle_trans; [apply Rmin_l|lra].
    + eapply Rle_trans; [apply Rmin_r|lra].
  - assert (Hu : - PI < x - y < PI) by (apply Rabs_lt_both; lra).
    assert (Hab : a - b = (x - y) - 2 * PI * IZR (k1 - k2))
      by (rewrite minus_IZR; lra).
    assert (Hn : -2 < IZR (k1 - k2) < 2) by (split; nra).
    destruct (small_integer _ Hn) as [E|[E|E]]; rewrite E in Hab.
    + eapply Rle_trans; [apply Rmin_r|].
      replace (a - b) with (x - y + 2 * PI) by lra.
      rewrite (Rabs_pos_eq (x - y + 2 * PI)) by lra.
      unfold Rabs. destruct (Rcase_abs (x - y)); lra.
    + eapply Rle_trans; [apply Rmin_l|].
      replace (a - b) with (x - y) by lra. lra.
    + eapply Rle_trans; [apply Rmin_r|].
      replace (a - b) with (x - y - 2 * PI) by lra.
      rewrite (Rabs_left (x - y - 2 * PI)) by lra.
      unfold Rabs. destruct (Rcase_abs (x - y)); lra.
Qed.

(** Close enough to a position whose normalisation is not 0, the
    normalisation is a translation. *)
Lemma wrap_position_near (x y : R) :
  Rabs (x - y) < wrap_position y ->
  Rabs (x - y) < 2 * PI - wrap_position y ->
  wrap_position x = wrap_position y + (x - y).
Proof.
  intros H1 H2.
  destruct (wrap_position_decompose y) as (k & Hy).
  apply Rabs_lt_both in H1. apply Rabs_lt_both in H2.
  rewrite (wrap_position_turns x k); lra.
Qed.

(** Just above a position normalised to 0, the normalisation is the
    distance to it. *)
Lemma wrap_position_above (x y : R) :
  wrap_position y = 0 -> 0 <= x - y < 2 * PI -> wrap_position x = x - y.
Proof.
  intros Hy H.
  destruct (wrap_position_decompose y) as (k & Hk).
  rewrite (wrap_position_turns x k); lra.
Qed.

(** ** Continuity from the three pieces of an evaluation *)

Lemma axis_reports_unique (a : axis) (self : BaseLlcMotion) (tai p q : R) :
  axis_reports a self tai p -> axis_reports a self tai q -> p = q.
Proof.
  intros (v & m & Hp) (v' & m' & Hq). rewrite Hp in Hq. congruence.
Qed.

Lemma bound_product (k d e K : R) :
  0 <= k < K -> 0 <= d -> d < e / K -> k * d < e.
Proof.
  intros [Hk HK] Hd He.
  assert (HdK : d * K < e).
  { apply Rmult_lt_compat_r with (r := K) in He; [|lra].
    replace (e / K * K) with e in He by (field; lra). exact He. }
  assert (k * d <= K * d) by (apply Rmult_le_compat_r; lra).
  lra.
Qed.

Section ContinuityAtEnd.

(** An object that answers no query before [t0], travels from [current] at
    velocity [v] during [T] seconds, arrives at an angle equal to the
    target, and from then on leaves the target at velocity [c]. *)
Variables (a : axis) (self' : BaseLlcMotion) (t0 T current v target c : R).

Hypothesis before_start :
  forall tai p, tai < t0 -> ~ axis_reports a self' tai p.

Hypothesis in_transit :
  forall tai, t0 <= tai < t0 + T ->
    axis_reports a self' tai (wrap_position (current + v * (tai - t0))).

Hypothesis arrival :
  0 < T -> wrap_position (current + v * T) = wrap_position target.

Hypothesis after_end :
  forall tai, tai >= t0 + T ->
    axis_reports a self' tai
      (wrap_position (target + c * (tai - (t0 + T)))).

Lemma reported_at_end : axis_reports a self' (t0 + T) (wrap_position target).
Proof.
  pose proof (after_end (t0 + T)) as H.
  replace (target + c * (t0 + T - (t0 + T))) with target in H by ring.
  apply H. lra.
Qed.

(** Near the end time the returned position is the normalisation of a
    position that is close to one normalised to the target. *)
Lemma near_end (delta tai p : R) :
  Rabs (tai - (t0 + T)) < delta / (Rabs v + Rabs c + 1) ->
  axis_reports a self' tai p ->
  exists x y,
    p = wrap_position x /\ wrap_position y = wrap_position target
    /\ Rabs (x - y) < delta
    /\ ((0 < T -> v <= 0) -> 0 <= c -> 0 <= x - y).
Proof.
  intros Hnear Hrep. apply Rabs_lt_both in Hnear.
  pose proof (Rabs_pos v) as Hv. pose proof (Rabs_pos c) as Hc.
  destruct (Rge_dec tai (t0 + T)) as [He|He].
  - exists (target + c * (tai - (t0 + T))), target.
    split; [exact (axis_reports_unique _ _ _ _ _ Hrep (after_end tai He))|].
    split; [reflexivity|].
    replace (target + c * (tai - (t0 + T)) - target)
      with (c * (tai - (t0 + T))) by ring.
    split.
    + rewrite Rabs_mult, (Rabs_pos_eq (tai - (t0 + T))) by lra.
      apply bound_product with (K := Rabs v + Rabs c + 1); lra.
    + intros _ Hcpos. apply Rmult_le_pos; lra.
  - destruct (Rlt_dec tai t0) as [Hs|Hs];
      [exfalso; exact (before_start tai p Hs Hrep)|].
    assert (Htai : t0 <= tai < t0 + T) by lra.
    exists (current + v * (tai - t0)), (current + v * T).
    split; [exact (axis_reports_unique _ _ _ _ _ Hrep (in_transit tai Htai))|].
    split; [apply arrival; lra|].
    replace (current + v * (tai - t0) - (current + v * T))
      with (v * (- (t0 + T - tai))) by ring.
    split.
    + rewrite Rabs_mult, Rabs_Ropp, (Rabs_pos_eq (t0 + T - tai)) by lra.
      apply bound_product with (K := Rabs v + Rabs c + 1); lra.
    + intros Hdown _.
      replace (v * - (t0 + T - tai)) with (- v * (t0 + T - tai)) by ring.
      apply Rmult_le_pos; [|lra].
      assert (v <= 0) by (apply Hdown; lra). lra.
Qed.

Lemma pieces_angle_continuous : angle_continuous_at a self' (t0 + T).
Proof.
  exists (wrap_position target). split; [exact reported_at_end|].
  intros eps Heps.
  pose proof (Rabs_pos v) as Hv. pose proof (Rabs_pos c) as Hc.
  exists (eps / (Rabs v + Rabs c + 1)).
  split; [apply Rdiv_lt_0_compat; lra|].
  intros tai p Hnear Hrep.
  destruct (near_end eps tai p Hnear Hrep) as (x & y & -> & <- & Hxy & _).
  eapply Rle_lt_trans; [apply angular_distance_wrap|exact Hxy].
Qed.

Lemma pieces_number_continuous :
  wrap_position target <> 0 -> number_continuous_at a self' (t0 + T).
Proof.
  intros Hnz.
  pose proof (wrap_position_range target) as Hq.
  exists (wrap_position target). split; [exact reported_at_end|].
  intros eps Heps.
  pose proof (Rabs_pos v) as Hv. pose proof (Rabs_pos c) as Hc.
  set (margin := Rmin eps
                   (Rmin (wrap_position target)
                         (2 * PI - wrap_position target))).
  assert (Hm : 0 < margin)
    by (unfold margin; repeat apply Rmin_glb_lt; lra).
  assert (Hm1 : margin <= eps) by apply Rmin_l.
  assert (Hm2 : margin <= wrap_position target).
  { unfold margin. eapply Rle_trans; [apply Rmin_r|apply Rmin_l]. }
  assert (Hm3 : margin <= 2 * PI - wrap_position target).
  { unfold margin. eapply Rle_trans; [apply Rmin_r|apply Rmin_r]. }
  exists (margin / (Rabs v + Rabs c + 1)).
  split; [apply Rdiv_lt_0_compat; lra|].
  intros tai p Hnear Hrep.
  destruct (near_end margin tai p Hnear Hrep) as (x & y & -> & Hy & Hxy & _).
  rewrite (wrap_position_near x y) by (rewrite Hy; lra).
  rewrite Hy.
  replace (wrap_position target + (x - y) - wrap_position target)
    with (x - y) by ring.
  lra.
Qed.

(** At a target that is a whole number of turns, reached from above and
    not left downward. *)
Lemma pieces_number_continuous_from_above :
  wrap_position target = 0 -> (0 < T -> v <= 0) -> 0 <= c ->
  number_continuous_at a self' (t0 + T).
Proof.
  intros Hz Hdown Hcpos. pose proof PI_RGT_0 as Hpi.
  exists (wrap_position target). split; [exact reported_at_end|].
  intros eps Heps.
  pose proof (Rabs_pos v) as Hv. pose proof (Rabs_pos c) as Hc.
  set (margin := Rmin eps (2 * PI)).
  assert (Hm : 0 < margin) by (unfold margin; apply Rmin_glb_lt; lra).
  assert (Hm1 : margin <= eps) by apply Rmin_l.
  assert (Hm2 : margin <= 2 * PI) by apply Rmin_r.
  exists (margin / (Rabs v + Rabs c + 1)).
  split; [apply Rdiv_lt_0_compat; lra|].
  intros tai p Hnear Hrep.
  destruct (near_end margin tai p Hnear Hrep)
    as (x & y & -> & Hy & Hxy & Hsign).
  specialize (Hsign Hdown Hcpos).
  apply Rabs_lt_both in Hxy.
  rewrite (wrap_position_above x y) by (rewrite ?Hy; try exact Hz; lra).
  rewrite Hz. replace (x - y - 0) with (x - y) by ring.
  rewrite Rabs_pos_eq; lra.
Qed.

End ContinuityAtEnd.

(** ** The pieces of the two axes after a move *)

Lemma speed_times_duration (d max_speed : R) :
  0 < max_speed ->
  (if Rlt_dec d 0 then - max_speed else max_speed) * (Rabs d / max_speed) = d.
Proof.
  intros Hm. destruct (Rlt_dec d 0).
  - rewrite Rabs_left by assumption. field. lra.
  - rewrite Rabs_pos_eq by lra. field. lra.
Qed.

Lemma positive_duration (d max_speed : R) :
  0 < max_speed -> 0 < Rabs d / max_speed -> d <> 0.
Proof.
  intros Hm Hd E. rewrite E, Rabs_R0 in Hd.
  unfold Rdiv in Hd. rewrite Rmult_0_l in Hd. lra.
Qed.

Lemma azimuth_out_of_order (self : BaseLlcMotion) (tai : R) :
  tai < _end_tai self -> tai < _start_tai self ->
  AzimuthMotion.get_position_velocity_and_motion_state self tai
  = Raise (ValueError TaiBeforeStart).
Proof.
  intros He Hs.
  unfold AzimuthMotion.get_position_velocity_and_motion_state,
    AzimuthMotion.evaluate_branches.
  destruct (Rge_dec tai (_end_tai self)); [lra|].
  destruct (Rlt_dec tai (_start_tai self)); [reflexivity|lra].
Qed.

(** What an accepted move has installed, on either axis. *)
Lemma move_installed (a : axis) (self self' : BaseLlcMotion)
  (t0 target crawl_velocity duration : R) :
  axis_set_target_position_and_velocity a self t0 target crawl_velocity MOVING
  = (Ok duration, self') ->
  exists current d,
    0 < _max_speed self
    /\ duration = Rabs d / _max_speed self
    /\ self' = install_segment self current t0 (t0 + duration) target
                 crawl_velocity MOVING
    /\ match a with
       | Azimuth => d = AzimuthMotion.shortest_path_distance current target
       | Elevation => d = target - current
       end.
Proof.
  intros H.
  assert (Hinv :
    exists current,
      Rabs crawl_velocity <= _max_speed self
      /\ self' = install_segment self current t0 (t0 + duration) target
                   crawl_velocity MOVING
      /\ _max_speed self <> 0
      /\ duration
         = Rabs (match a with
                 | Azimuth => AzimuthMotion._get_distance
                 | Elevation => _get_distance
                 end (install_segment self current t0 t0 target
                        crawl_velocity MOVING))
           / _max_speed self).
  { destruct a;
      destruct (set_target_inv _ _ _ _ _ _ _ _ _ H)
        as (current & v & m & _ & Hv & _ & Hs & [[Hc _]|(_ & Hz & Hd)]);
      try discriminate;
      exists current; repeat split; assumption. }
  destruct Hinv as (current & Hv & Hs & Hz & Hd).
  pose proof (Rabs_pos crawl_velocity).
  exists current.
  destruct a; eexists; (split; [lra|]); (split; [exact Hd|]);
    (split; [exact Hs|]); reflexivity.
Qed.

Lemma elevation_move_pieces
  (self : BaseLlcMotion) (current t0 target crawl_velocity : R) :
  0 < _max_speed self ->
  let d := target - current in
  let T := Rabs d / _max_speed self in
  let v := if Rlt_dec d 0 then - _max_speed self else _max_speed self in
  let moving :=
    install_segment self current t0 (t0 + T) target crawl_velocity MOVING in
  0 <= T
  /\ (forall tai p, tai < t0 -> ~ axis_reports Elevation moving tai p)
  /\ (forall tai, t0 <= tai < t0 + T ->
        axis_reports Elevation moving tai
          (wrap_position (current + v * (tai - t0))))
  /\ (0 < T -> wrap_position (current + v * T) = wrap_position target)
  /\ (forall tai, tai >= t0 + T ->
        ElevationMotion.get_position_velocity_and_motion_state moving tai
        = Ok (wrap_position target, 0, STOPPED)).
Proof.
  intros Hm d T v moving.
  assert (HT : 0 <= T).
  { unfold T. apply Rmult_le_pos; [apply Rabs_pos|].
    apply Rlt_le, Rinv_0_lt_compat, Hm. }
  split; [exact HT|]. split; [|split; [|split]].
  - intros tai p Htai (vv & mm & Hrep). simpl in Hrep.
    rewrite evaluate_out_of_order in Hrep by (simpl; lra). discriminate.
  - intros tai Htai.
    assert (Hd : d <> 0) by (apply (positive_duration d _ Hm); fold T; lra).
    exists v, MOVING. simpl.
    rewrite evaluate_transit by (simpl; lra).
    unfold transit_position, transit_velocity, transit_state, _get_distance.
    simpl. fold d. unfold T.
    rewrite (travel_at_max_speed d _ t0 tai Hm Hd). reflexivity.
  - intros _. unfold v, T. rewrite (speed_times_duration d _ Hm).
    f_equal. unfold d. ring.
  - intros tai Htai.
    rewrite evaluate_hold;
      [reflexivity|simpl; lra|unfold holds_at_end; simpl; tauto].
Qed.

Lemma azimuth_move_pieces
  (self : BaseLlcMotion) (current t0 target crawl_velocity : R) :
  0 < _max_speed self ->
  let d := AzimuthMotion.shortest_path_distance current target in
  let T := Rabs d / _max_speed self in
  let v := if Rlt_dec d 0 then - _max_speed self else _max_speed self in
  let moving :=
    install_segment self current t0 (t0 + T) target crawl_velocity MOVING in
  0 <= T
  /\ (forall tai p, tai < t0 -> ~ axis_reports Azimuth moving tai p)
  /\ (forall tai, t0 <= tai < t0 + T ->
        axis_reports Azimuth moving tai
          (wrap_position (current + v * (tai - t0))))
  /\ (0 < T -> wrap_position (current + v * T) = wrap_position target)
  /\ (forall tai, tai >= t0 + T ->
        AzimuthMotion.get_position_velocity_and_motion_state moving tai
        = Ok (wrap_position (target + crawl_velocity * (tai - (t0 + T))),
              crawl_velocity,
              if Req_dec_T crawl_velocity 0 then STOPPED else CRAWLING)).
Proof.
  intros Hm d T v moving.
  assert (HT : 0 <= T).
  { unfold T. apply Rmult_le_pos; [apply Rabs_pos|].
    apply Rlt_le, Rinv_0_lt_compat, Hm. }
  split; [exact HT|]. split; [|split; [|split]].
  - intros tai p Htai (vv & mm & Hrep). simpl in Hrep.
    rewrite azimuth_out_of_order in Hrep by (simpl; lra). discriminate.
  - intros tai Htai.
    assert (Hd : d <> 0) by (apply (positive_duration d _ Hm); fold T; lra).
    exists v, MOVING. simpl.
    destruct (AzimuthCommands.evaluate_in_transit moving tai)
      as (_ & _ & Hmove); [simpl; lra|].
    rewrite (Hmove eq_refl). unfold AzimuthMotion._get_distance. simpl.
    fold d. unfold T.
    rewrite (travel_at_max_speed d _ t0 tai Hm Hd). reflexivity.
  - intros _. unfold v, T. rewrite (speed_times_duration d _ Hm).
    destruct (AzimuthFacts.shortest_path_distance_candidate current target)
      as [E|[E|E]]; fold d in E; rewrite E.
    + f_equal. ring.
    + rewrite <- (wrap_position_whole_turns target 1). f_equal. ring.
    + rewrite <- (wrap_position_whole_turns target (-1)). f_equal. ring.
  - intros tai Htai.
    destruct (AzimuthCommands.evaluate_arrived moving tai) as (Hmove & _);
      [simpl; lra|].
    rewrite (Hmove eq_refl). reflexivity.
Qed.

(** C9.  On either axis, the segment installed by an accepted move with a
    crawl velocity that is not zero ends [duration] seconds after the
    command, at the target.  Before its end time the returned position is
    the normalisation of a linear interpolation that starts at the current
    position and ends at an angle equal to the target; at its end time the
    returned position is the normalised target.  From the end time on the
    azimuth model crawls away from the target, which is the start of its
    crawl evaluation, and the elevation model rests at the target.  The
    returned position is continuous at the end time as an angle; it is
    continuous as a number whenever the target is not a whole number of
    turns, and also at such a target when the move travels downward to it
    and the model does not leave it downward. *)
Theorem position_is_continuous_at_the_end_of_a_move
  (a : axis) (self self' : BaseLlcMotion)
  (t0 target crawl_velocity duration : R) :
  crawl_velocity <> 0 ->
  axis_set_target_position_and_velocity a self t0 target crawl_velocity MOVING
  = (Ok duration, self') ->
  _end_tai self' = t0 + duration
  /\ _end_position self' = target
  /\ (exists current v,
        (forall tai, t0 <= tai < t0 + duration ->
           axis_reports a self' tai (wrap_position (current + v * (tai - t0))))
        /\ (0 < duration ->
            wrap_position (current + v * duration) = wrap_position target))
  /\ axis_reports a self' (_end_tai self') (wrap_position target)
  /\ match a with
     | Azimuth =>
       forall tai, tai >= _end_tai self' ->
         AzimuthMotion.get_position_velocity_and_motion_state self' tai
         = Ok (wrap_position
                 (target + crawl_velocity * (tai - _end_tai self')),
               crawl_velocity, CRAWLING)
     | Elevation =>
       forall tai, tai >= _end_tai self' ->
         ElevationMotion.get_position_velocity_and_motion_state self' tai
         = Ok (wrap_position target, 0, STOPPED)
     end
  /\ angle_continuous_at a self' (_end_tai self')
  /\ (wrap_position target <> 0 ->
      number_continuous_at a self' (_end_tai self'))
  /\ (wrap_position target = 0 ->
      match a with
      | Azimuth =>
        AzimuthMotion._get_distance self' <= 0 /\ 0 <= crawl_velocity
      | Elevation => _get_distance self' <= 0
      end ->
      number_continuous_at a self' (_end_tai self')).
Proof.
  intros Hc Hset.
  destruct (move_installed _ _ _ _ _ _ _ Hset)
    as (current & d & Hm & Hdur & -> & Hd).
  simpl. split; [reflexivity|]. split; [reflexivity|].
  destruct a; subst d duration.
  - destruct (azimuth_move_pieces self current t0 target crawl_velocity Hm)
      as (HT & Hbefore & Htransit & Harrive & Hafter).
    assert (Hafter' :
      forall tai,
        tai >= t0 + Rabs (AzimuthMotion.shortest_path_distance current target)
                    / _max_speed self ->
        axis_reports Azimuth
          (install_segment self current t0
             (t0 + Rabs (AzimuthMotion.shortest_path_distance current target)
                   / _max_speed self) target crawl_velocity MOVING) tai
          (wrap_position
             (target
              + crawl_velocity
                * (tai
                   - (t0 + Rabs (AzimuthMotion.shortest_path_distance
                                   current target) / _max_speed self))))).
    { intros tai Htai. eexists. eexists. apply Hafter, Htai. }
    split; [eexists; eexists; split; [exact Htransit|exact Harrive]|].
    split; [exact (reported_at_end _ _ _ _ _ _ Hafter')|].
    split.
    { intros tai Htai. rewrite (Hafter tai Htai).
      destruct (Req_dec_T crawl_velocity 0); [contradiction|reflexivity]. }
    split; [|split].
    + exact (pieces_angle_continuous _ _ _ _ _ _ _ _
               Hbefore Htransit Harrive Hafter').
    + exact (pieces_number_continuous _ _ _ _ _ _ _ _
               Hbefore Htransit Harrive Hafter').
    + intros Hz [Hdown Hcpos].
      unfold AzimuthMotion._get_distance in Hdown. simpl in Hdown.
      apply (pieces_number_continuous_from_above _ _ _ _ _ _ _ _
               Hbefore Htransit Harrive Hafter' Hz); [|exact Hcpos].
      intros HTpos.
      destruct (Rlt_dec (AzimuthMotion.shortest_path_distance current target) 0);
        [lra|].
      exfalso.
      apply (positive_duration _ _ Hm HTpos). lra.
  - destruct (elevation_move_pieces self current t0 target crawl_velocity Hm)
      as (HT & Hbefore & Htransit & Harrive & Hafter).
    assert (Hafter' :
      forall tai,
        tai >= t0 + Rabs (target - current) / _max_speed self ->
        axis_reports Elevation
          (install_segment self current t0
             (t0 + Rabs (target - current) / _max_speed self) target
             crawl_velocity MOVING) tai
          (wrap_position
             (target
              + 0 * (tai - (t0 + Rabs (target - current) / _max_speed self))))).
    { intros tai Htai. exists 0, STOPPED. simpl.
      rewrite (Hafter tai Htai), Rmult_0_l, Rplus_0_r. reflexivity. }
    split; [eexists; eexists; split; [exact Htransit|exact Harrive]|].
    split; [exact (reported_at_end _ _ _ _ _ _ Hafter')|].
    split; [exact Hafter|].
    split; [|split].
    + exact (pieces_angle_continuous _ _ _ _ _ _ _ _
               Hbefore Htransit Harrive Hafter').
    + exact (pieces_number_continuous _ _ _ _ _ _ _ _
               Hbefore Htransit Harrive Hafter').
    + intros Hz Hdown.
      unfold _get_distance in Hdown. simpl in Hdown.
      apply (pieces_number_continuous_from_above _ _ _ _ _ _ _ _
               Hbefore Htransit Harrive Hafter' Hz); [|lra].
      intros HTpos.
      destruct (Rlt_dec (target - current) 0); [lra|].
      exfalso.
      apply (positive_duration _ _ Hm HTpos). lra.
Qed.

(** The move of [test_move_zero_ten_pos]: from 0 to 10 degrees at 4 degrees
    per second, crawl velocity 0.1 degrees per second. *)
Lemma position_is_continuous_at_the_end_of_a_move_witness :
  radians (1 / 10) <> 0
  /\ AzimuthMotion.set_target_position_and_velocity
       (AzimuthMotion.init 0 (radians 4) 10001) 10001 (radians 10)
       (radians (1 / 10)) MOVING
     = (Ok (radians 10 / radians 4),
        install_segment (AzimuthMotion.init 0 (radians 4) 10001) 0 10001
          (10001 + radians 10 / radians 4) (radians 10) (radians (1 / 10))
          MOVING)
  /\ angle_continuous_at Azimuth
       (install_segment (AzimuthMotion.init 0 (radians 4) 10001) 0 10001
          (10001 + radians 10 / radians 4) (radians 10) (radians (1 / 10))
          MOVING)
       (10001 + radians 10 / radians 4)
  /\ number_continuous_at Azimuth
       (install_segment (AzimuthMotion.init 0 (radians 4) 10001) 0 10001
          (10001 + radians 10 / radians 4) (radians 10) (radians (1 / 10))
          MOVING)
       (10001 + radians 10 / radians 4).
Proof.
  pose proof PI_RGT_0 as Hpi.
  assert (H1 : radians (1 / 10) <> 0) by (unfold radians; lra).
  assert (Hd : AzimuthMotion.shortest_path_distance 0 (radians 10) = radians 10).
  { destruct (AzimuthCommands.shortest_path_distance_cases 0 (radians 10))
      as (Hnear & _); [lra|unfold radians; lra|].
    rewrite Hnear by (unfold radians; solve_abs). ring. }
  assert (H2 : AzimuthMotion.set_target_position_and_velocity
                 (AzimuthMotion.init 0 (radians 4) 10001) 10001 (radians 10)
                 (radians (1 / 10)) MOVING
               = (Ok (radians 10 / radians 4),
                  install_segment (AzimuthMotion.init 0 (radians 4) 10001) 0
                    10001 (10001 + radians 10 / radians 4) (radians 10)
                    (radians (1 / 10)) MOVING)).
  { rewrite (AzimuthFacts.set_target_moving _ _ _ _ 0 0 STOPPED).
    - rewrite Hd, Rabs_pos_eq by (unfold radians; lra). reflexivity.
    - simpl. unfold radians. solve_abs.
    - simpl. unfold radians. lra.
    - simpl. lra.
    - apply AzimuthFacts.evaluate_init. lra. }
  assert (H3 : wrap_position (radians 10) <> 0).
  { rewrite wrap_position_id; unfold radians; lra. }
  split; [exact H1|]. split; [exact H2|].
  destruct (position_is_continuous_at_the_end_of_a_move Azimuth _ _ _ _ _ _
              H1 H2) as (_ & _ & _ & _ & _ & Hangle & Hnumber & _).
  split; [exact Hangle|exact (Hnumber H3)].
Defined.
